(** * Student report extractor: the extraction gateway and its HTTP front door

    A shallow embedding of [backend/extractor.py] ([GeminiExtractor]) and of
    the [/api/extract] handler of [backend/main.py], with the properties the
    specification states about them.

    Conventions of the embedding.
    - A Python [str] that the program handles as text (the model output, a
      line, a keyword, an exception message) is a [text]: a list of
      characters, each a code point in U+0000..U+00FF.  Case mapping and the
      white space test are Python's on that range.
    - Python values built by the program or by [json.loads] are [pyval]s; a
      [dict] is an association list in insertion order.
    - [json.loads] is the standard library's decoder, written out in
      [Json], with the interpreter's two limits (nesting, digits of an
      integer) as arguments; its loops run under a bound that is shown
      never to be reached ([loops_never_run_out]).
    - The image decoder (PIL) and the generative model are outside the
      repository: they are fields of a [World], as are the limits of the
      interpreter and what FastAPI can render.  Calls to the collaborators
      are recorded in a call log, so that "is never called" is a statement
      about the log.
    - Exceptions are the instances of Python's [Exception]; code that can
      raise lives in the monad [M], which threads the call log. *)

From Stdlib Require Import List Ascii String NArith ZArith Bool Arith Lia.
Import ListNotations.

Local Open Scope list_scope.
Local Open Scope bool_scope.

(* ================================================================= *)
(** ** Text *)

Definition text := list ascii.

(** A literal of the source. *)
Definition txt (s : string) : text := list_ascii_of_string s.

Definition newline : ascii := ascii_of_nat 10.

Module Str.

(** [str.isspace] on one character, as [str.strip()] uses it: the ASCII
    white space table (0x09-0x0D, 0x1C-0x20) plus U+0085 and U+00A0. *)
Definition isspace (c : ascii) : bool :=
  let n := N_of_ascii c in
  ((9 <=? n) && (n <=? 13) || (28 <=? n) && (n <=? 32)
   || (n =? 133) || (n =? 160))%N.

(** [str.lower] on one character: A-Z, and the Latin-1 capitals
    U+00C0..U+00DE except the multiplication sign U+00D7. *)
Definition lower_char (c : ascii) : ascii :=
  let n := N_of_ascii c in
  if ((65 <=? n) && (n <=? 90) || (192 <=? n) && (n <=? 214)
      || (216 <=? n) && (n <=? 222))%N
  then ascii_of_N (n + 32) else c.

Definition lower (s : text) : text := map lower_char s.

Fixpoint lstrip (s : text) : text :=
  match s with
  | [] => []
  | c :: r => if isspace c then lstrip r else s
  end.

Definition rstrip (s : text) : text := rev (lstrip (rev s)).

(** [s.strip()] *)
Definition strip (s : text) : text := rstrip (lstrip s).

(** [s.startswith(p)] *)
Fixpoint startswith (s p : text) : bool :=
  match p, s with
  | [], _ => true
  | _ :: _, [] => false
  | a :: p', b :: s' => Ascii.eqb a b && startswith s' p'
  end.

(** [k in s] *)
Fixpoint contains (k s : text) : bool :=
  startswith s k ||
  match s with
  | [] => false
  | _ :: r => contains k r
  end.

(** [s.split('\n')]: never empty, one more piece than there are newlines. *)
Fixpoint split_lines (s : text) : list text :=
  match s with
  | [] => [[]]
  | c :: r =>
      if Ascii.eqb c newline then [] :: split_lines r
      else match split_lines r with
           | l :: ls => (c :: l) :: ls
           | [] => [[c]]
           end
  end.

End Str.

(* ================================================================= *)
(** ** [GeminiExtractor._extract_field] *)

(** The inner loop: [for line in lines: if keyword in line.lower(): return
    line.strip()].  [None] when the loop runs to its end. *)
Fixpoint first_line_with (keyword : text) (lines : list text) : option text :=
  match lines with
  | [] => None
  | line :: rest =>
      if Str.contains keyword (Str.lower line) then Some (Str.strip line)
      else first_line_with keyword rest
  end.

(** [_extract_field(self, text, *keywords)]. *)
Fixpoint _extract_field (text_ : text) (keywords : list text) : text :=
  match keywords with
  | [] => []
  | keyword :: rest =>
      if Str.contains keyword (Str.lower text_) then
        match first_line_with keyword (Str.split_lines text_) with
        | Some found => found
        | None => _extract_field text_ rest
        end
      else _extract_field text_ rest
  end.

(* ================================================================= *)
(** ** Python values *)

(** The text of a Python [str] value, as code points: a JSON string can
    hold any of them through [\uXXXX]. *)
Definition ustr := list N.

Definition u (s : text) : ustr := map N_of_ascii s.

(** A literal of the source as a [str] value's content. *)
Definition lit (s : string) : ustr := u (txt s).

Fixpoint ustr_eqb (a b : ustr) : bool :=
  match a, b with
  | [], [] => true
  | x :: a', y :: b' => N.eqb x y && ustr_eqb a' b'
  | _, _ => false
  end.

(** [PFloat l] is [float(l)]: a float is kept as the literal it was read
    from, so no floating point arithmetic is modelled. *)
#[warnings="-register-all"]
Inductive pyval : Type :=
| PNone
| PBool (b : bool)
| PInt (z : Z)
| PFloat (literal : text)
| PStr (s : ustr)
| PList (items : list pyval)
| PDict (entries : list (ustr * pyval)).

(** [d[k] = v]: a key already present keeps its place. *)
Fixpoint dict_set (d : list (ustr * pyval)) (k : ustr) (v : pyval)
  : list (ustr * pyval) :=
  match d with
  | [] => [(k, v)]
  | (k', v') :: r =>
      if ustr_eqb k k' then (k', v) :: r else (k', v') :: dict_set r k v
  end.

(** [dict(pairs)] *)
Definition dict (pairs : list (ustr * pyval)) : list (ustr * pyval) :=
  fold_left (fun d kv => dict_set d (fst kv) (snd kv)) pairs [].

(** [d.get(k)] on the entries of a dict. *)
Fixpoint dict_get (d : list (ustr * pyval)) (k : ustr) : option pyval :=
  match d with
  | [] => None
  | (k', v) :: r => if ustr_eqb k k' then Some v else dict_get r k
  end.

(** [v[k]] for a value: [None] where Python raises (not a dict, no key). *)
Definition item (v : pyval) (k : ustr) : option pyval :=
  match v with
  | PDict d => dict_get d k
  | _ => None
  end.

(* ================================================================= *)
(** ** [json.loads]

    The strict decoder of CPython's [json] package ([json.decoder],
    [json.scanner], and the scanner of [_json] for the two limits) on a
    [str] argument, with the default hooks.  The functions consume a
    prefix of their argument and return what is left of it.  A scan
    either gives a value or fails in one of three ways ([jerr]): the text
    is not JSON ([JSONDecodeError]), containers nest deeper than the
    interpreter allows ([RecursionError]), or an integer has more digits
    than [int()] converts ([ValueError]).  The two limits belong to the
    interpreter at hand and are arguments here. *)

Module Json.

Definition dquote : ascii := ascii_of_nat 34.
Definition backslash : ascii := ascii_of_nat 92.

(** [WHITESPACE_STR = ' \t\n\r'] *)
Definition is_ws (c : ascii) : bool :=
  let n := N_of_ascii c in ((n =? 32) || (n =? 9) || (n =? 10) || (n =? 13))%N.

(** [WHITESPACE.match(s, end).end()] *)
Fixpoint skip_ws (s : text) : text :=
  match s with
  | [] => []
  | c :: r => if is_ws c then skip_ws r else s
  end.

Definition is_digit (c : ascii) : bool :=
  let n := N_of_ascii c in ((48 <=? n) && (n <=? 57))%N.

(** the value of a hexadecimal digit, [0-9A-Fa-f] *)
Definition hexval (c : ascii) : option N :=
  let n := N_of_ascii c in
  if ((48 <=? n) && (n <=? 57))%N then Some (n - 48)%N
  else if ((65 <=? n) && (n <=? 70))%N then Some (n - 55)%N
  else if ((97 <=? n) && (n <=? 102))%N then Some (n - 87)%N
  else None.

(** the table [BACKSLASH] of one-letter escapes *)
Definition BACKSLASH (c : ascii) : option N :=
  let n := N_of_ascii c in
  if (n =? 34)%N then Some 34%N            (* quote *)
  else if (n =? 92)%N then Some 92%N       (* backslash *)
  else if (n =? 47)%N then Some 47%N       (* slash *)
  else if (n =? 98)%N then Some 8%N        (* backspace *)
  else if (n =? 102)%N then Some 12%N      (* form feed *)
  else if (n =? 110)%N then Some 10%N      (* line feed *)
  else if (n =? 114)%N then Some 13%N      (* carriage return *)
  else if (n =? 116)%N then Some 9%N       (* tab *)
  else None.

(** A [\uXXXX] high surrogate directly followed by a [\uXXXX] low
    surrogate is one character.  The characters of the text itself are
    below U+0100, so the surrogates of a decoded string all come from
    escapes, and two of them are adjacent exactly when their escapes
    are: the pairing is done on the decoded code points, left to right,
    as [py_scanstring] does while it reads. *)
Fixpoint combine_surrogates (l : list N) : list N :=
  match l with
  | [] => []
  | hi :: rest =>
      match rest with
      | lo :: rest' =>
          if ((55296 <=? hi) && (hi <=? 56319)
              && (56320 <=? lo) && (lo <=? 57343))%N
          then (65536 + N.lor (N.shiftl (hi - 55296) 10) (lo - 56320))%N
               :: combine_surrogates rest'
          else hi :: combine_surrogates rest
      | [] => [hi]
      end
  end.

(** Where the scan of a string literal stands: in plain content, just
    after a backslash, or inside [\uXXXX] with [remaining] digits to
    read and [value] read so far. *)
Inductive sstate :=
| SNorm
| SEsc
| SHex (remaining : nat) (value : N).

(** [py_scanstring(s, end, strict=True)], from after the opening quote;
    [acc] holds the decoded code points, last first. *)
Fixpoint scanstring_from (st : sstate) (s : text) (acc : list N)
  : option (ustr * text) :=
  match s with
  | [] => None
  | c :: r =>
      match st with
      | SNorm =>
          if Ascii.eqb c dquote then Some (combine_surrogates (rev acc), r)
          else if Ascii.eqb c backslash then scanstring_from SEsc r acc
          else if (N_of_ascii c <? 32)%N then None
          else scanstring_from SNorm r (N_of_ascii c :: acc)
      | SEsc =>
          if Ascii.eqb c "u"%char then scanstring_from (SHex 4 0) r acc
          else match BACKSLASH c with
               | Some x => scanstring_from SNorm r (x :: acc)
               | None => None
               end
      | SHex k v =>
          match hexval c with
          | None => None
          | Some d =>
              let v' := (16 * v + d)%N in
              match k with
              | 0 => None
              | 1 => scanstring_from SNorm r (v' :: acc)
              | S k' => scanstring_from (SHex k' v') r acc
              end
          end
      end
  end.

Definition scanstring (s : text) : option (ustr * text) :=
  scanstring_from SNorm s [].

(** the longest run of digits at the head *)
Fixpoint span_digits (s : text) : text * text :=
  match s with
  | [] => ([], [])
  | c :: r =>
      if is_digit c then let (d, rest) := span_digits r in (c :: d, rest)
      else ([], s)
  end.

(** the optional fraction group: a point and at least one digit *)
Definition match_frac (s : text) : text * text :=
  match s with
  | c :: r =>
      if Ascii.eqb c "."%char then
        match span_digits r with
        | ([], _) => ([], s)
        | (d, rest) => (c :: d, rest)
        end
      else ([], s)
  | [] => ([], s)
  end.

(** the optional exponent group: e or E, an optional sign, at least one
    digit *)
Definition match_exp (s : text) : text * text :=
  match s with
  | c :: r =>
      if Ascii.eqb c "e"%char || Ascii.eqb c "E"%char then
        let (sign, r1) :=
          match r with
          | c1 :: r' =>
              if Ascii.eqb c1 "-"%char || Ascii.eqb c1 "+"%char
              then ([c1], r') else ([], r)
          | [] => ([], r)
          end in
        match span_digits r1 with
        | ([], _) => ([], s)
        | (d, rest) => (c :: sign ++ d, rest)
        end
      else ([], s)
  | [] => ([], s)
  end.

(** the integer group of [NUMBER_RE]: an optional minus sign, then a
    lone zero or a digit from 1 to 9 followed by any digits *)
Definition match_integer (s : text) : option (text * text) :=
  let (sign, s1) :=
    match s with
    | c :: r => if Ascii.eqb c "-"%char then ([c], r) else ([], s)
    | [] => ([], s)
    end in
  match s1 with
  | [] => None
  | c :: r =>
      if Ascii.eqb c "0"%char then Some (sign ++ [c], r)
      else if is_digit c then
        let (d, rest) := span_digits r in Some (sign ++ c :: d, rest)
      else None
  end.

(** [NUMBER_RE.match(s, idx)]: the groups (integer, frac, exp), an
    unmatched group being empty, and the text after the match. *)
Definition match_number (s : text) : option (text * text * text * text) :=
  match match_integer s with
  | None => None
  | Some (integer, r) =>
      let (frac, r1) := match_frac r in
      let (exp, r2) := match_exp r1 in
      Some (integer, frac, exp, r2)
  end.

Definition digits_value (d : text) : Z :=
  fold_left (fun a c => (10 * a + Z.of_N (N_of_ascii c - 48))%Z) d 0%Z.

(** [int(integer)] on a match of the integer group *)
Definition parse_int (integer : text) : Z :=
  match integer with
  | c :: d => if Ascii.eqb c "-"%char then (- digits_value d)%Z
              else digits_value integer
  | [] => 0%Z
  end.

(** what is left of [s] after the prefix [p], when [s] starts with it *)
Fixpoint after_prefix (p s : text) : option text :=
  match p, s with
  | [], _ => Some s
  | _ :: _, [] => None
  | a :: p', b :: s' => if Ascii.eqb a b then after_prefix p' s' else None
  end.

(** How a scan fails. *)
Inductive jerr :=
| Invalid
| TooDeep
| TooLong.

(** What a scan gives: the failure, or the value and the text after it. *)
Definition scanned : Type := jerr + pyval * text.

Definition invalid_if_none (o : option (pyval * text)) : scanned :=
  match o with
  | Some x => inr x
  | None => inl Invalid
  end.

(** Every member of a container starts with a character that is not
    white space, so one more than the number of such characters is more
    than the members a text can hold: the loops below run under that
    bound and never reach it ([loops_never_run_out]). *)
Definition fuel (s : text) : nat :=
  S (List.length (filter (fun c => negb (Str.isspace c)) s)).

Section Containers.

(** The scanner for the values nested in a container: [_scan_once],
    which [JSONArray] and [JSONObject] receive as an argument. *)
Variable scan : text -> scanned.

(** The [while True] loop of [JSONArray], entered in front of a value;
    [k] bounds the number of values read, [acc] holds them last first. *)
Fixpoint array_loop (k : nat) (s : text) (acc : list pyval) : scanned :=
  match k with
  | 0 => inl Invalid
  | S k' =>
      match scan s with
      | inl e => inl e
      | inr (v, r) =>
          match skip_ws r with
          | c :: r' =>
              if Ascii.eqb c "]"%char then inr (PList (rev (v :: acc)), r')
              else if Ascii.eqb c ","%char
                   then array_loop k' (skip_ws r') (v :: acc)
                   else inl Invalid
          | [] => inl Invalid
          end
      end
  end.

(** [JSONArray((s, end), scan_once)], from after the bracket *)
Definition JSONArray (s : text) : scanned :=
  match skip_ws s with
  | c :: r =>
      if Ascii.eqb c "]"%char then inr (PList [], r)
      else array_loop (fuel s) (c :: r) []
  | [] => array_loop (fuel s) [] []
  end.

(** The [while True] loop of [JSONObject], entered after the opening
    quote of a key. *)
Fixpoint object_loop (k : nat) (s : text) (acc : list (ustr * pyval))
  : scanned :=
  match k with
  | 0 => inl Invalid
  | S k' =>
      match scanstring s with
      | None => inl Invalid
      | Some (key, r) =>
          match skip_ws r with
          | c :: r1 =>
              if Ascii.eqb c ":"%char then
                match scan (skip_ws r1) with
                | inl e => inl e
                | inr (v, r2) =>
                    match skip_ws r2 with
                    | c2 :: r3 =>
                        if Ascii.eqb c2 "}"%char then
                          inr (PDict (dict (rev ((key, v) :: acc))), r3)
                        else if Ascii.eqb c2 ","%char then
                          match skip_ws r3 with
                          | c3 :: r4 =>
                              if Ascii.eqb c3 dquote
                              then object_loop k' r4 ((key, v) :: acc)
                              else inl Invalid
                          | [] => inl Invalid
                          end
                        else inl Invalid
                    | [] => inl Invalid
                    end
                end
              else inl Invalid
          | [] => inl Invalid
          end
      end
  end.

(** [JSONObject((s, end), strict, scan_once, ...)], from after the brace *)
Definition JSONObject (s : text) : scanned :=
  match skip_ws s with
  | c :: r =>
      if Ascii.eqb c "}"%char then inr (PDict [], r)
      else if Ascii.eqb c dquote then object_loop (fuel s) r []
      else inl Invalid
  | [] => inl Invalid
  end.

End Containers.

(** The digits of a match of the integer group, its sign left out. *)
Definition digit_count (integer : text) : nat :=
  List.length (filter is_digit integer).

(** [int()] refuses a literal of more than [max_digits] digits; a limit
    of 0 is no limit ([sys.set_int_max_str_digits]). *)
Definition too_long (max_digits : nat) (integer : text) : bool :=
  match max_digits with
  | 0 => false
  | S _ => max_digits <? digit_count integer
  end.

(** [parse_int(integer)] or [parse_float(integer + frac + exp)] *)
Definition number (max_digits : nat) (integer frac exp : text)
  : jerr + pyval :=
  match frac, exp with
  | [], [] =>
      if too_long max_digits integer then inl TooLong
      else inr (PInt (parse_int integer))
  | _, _ => inr (PFloat (integer ++ frac ++ exp))
  end.

Definition literal (p : string) (v : pyval) (s : text)
  : option (pyval * text) :=
  option_map (fun r => (v, r)) (after_prefix (txt p) s).

(** [scan_once(string, idx)].  [depth] is the number of containers that
    may still be entered, one inside the other, before the interpreter
    raises [RecursionError]. *)
Fixpoint scan_once (max_digits depth : nat) (s : text) {struct depth}
  : scanned :=
  match s with
  | [] => inl Invalid
  | c :: r =>
      if Ascii.eqb c dquote then
        invalid_if_none
          (option_map (fun '(k, r') => (PStr k, r')) (scanstring r))
      else if Ascii.eqb c "{"%char then
        match depth with
        | 0 => inl TooDeep
        | S depth' => JSONObject (scan_once max_digits depth') r
        end
      else if Ascii.eqb c "["%char then
        match depth with
        | 0 => inl TooDeep
        | S depth' => JSONArray (scan_once max_digits depth') r
        end
      else if Ascii.eqb c "n"%char then
        invalid_if_none (literal "null" PNone s)
      else if Ascii.eqb c "t"%char then
        invalid_if_none (literal "true" (PBool true) s)
      else if Ascii.eqb c "f"%char then
        invalid_if_none (literal "false" (PBool false) s)
      else
        match match_number s with
        | Some (integer, frac, exp, rest) =>
            match number max_digits integer frac exp with
            | inl e => inl e
            | inr v => inr (v, rest)
            end
        | None =>
            if Ascii.eqb c "N"%char then
              invalid_if_none (literal "NaN" (PFloat (txt "NaN")) s)
            else if Ascii.eqb c "I"%char then
              invalid_if_none (literal "Infinity" (PFloat (txt "Infinity")) s)
            else if Ascii.eqb c "-"%char then
              invalid_if_none
                (literal "-Infinity" (PFloat (txt "-Infinity")) s)
            else inl Invalid
        end
  end.

(** [JSONDecoder.decode(s)]: one value, white space around it, nothing
    else. *)
Definition decode (max_digits depth : nat) (s : text) : jerr + pyval :=
  match scan_once max_digits depth (skip_ws s) with
  | inl e => inl e
  | inr (v, r) =>
      match skip_ws r with
      | [] => inr v
      | _ :: _ => inl Invalid
      end
  end.

End Json.

(** A literal in which an apostrophe stands for a double quote. *)
Definition quoted (s : string) : text :=
  map (fun c => if Ascii.eqb c "'"%char then Json.dquote else c) (txt s).

(* ================================================================= *)
(** ** Exceptions, collaborators and the call log *)

Definition bytes := list Byte.byte.

(** A decoded image, as PIL hands it over. *)
Record Image := { pixels : bytes }.

(** A configured [genai.GenerativeModel]. *)
Record Model := { model_name : text }.

(** [Exception] stands for every class but the two named ones. *)
Inductive exn :=
| Exception (message : text)
| HTTPException (status_code : Z) (detail : pyval)
| JSONDecodeError (message : text).

(** What the program asks of the outside. *)
Inductive call :=
| CallImageOpen (image_bytes : bytes)
| CallGenerateContent (model : Model) (prompt : text) (image : Image)
| CallExtractBytes (image_bytes : bytes)
| CallRead.

(** The collaborators.  Each either returns or raises. *)
Record World := {
  (** [genai.configure(api_key=...)] *)
  genai_configure : text -> exn + unit;
  (** [genai.GenerativeModel(model_name)] *)
  GenerativeModel : text -> exn + Model;
  (** [Image.open(BytesIO(image_bytes))] *)
  Image_open : bytes -> exn + Image;
  (** [model.generate_content([prompt, image]).text] *)
  generate_content : Model -> text -> Image -> exn + text;
  (** [str(e)] for an [HTTPException] (it depends on the Starlette at hand) *)
  str_HTTPException : Z -> pyval -> text;
  (** how many containers [json.loads] may enter, one inside the other *)
  recursion_depth : nat;
  (** [sys.get_int_max_str_digits()] *)
  int_max_str_digits : nat;
  (** [str(e)] for what [json.loads] raises on a text *)
  json_error_text : Json.jerr -> text -> text;
  (** whether FastAPI can render a returned value as the JSON body: not
      so for NaN and the infinities, for a lone surrogate, for nesting
      deeper than its encoder can follow *)
  renders : pyval -> bool
}.

(** [json.loads(s)] as a result. *)
Definition json_loads_result (W : World) (s : text) : Json.jerr + pyval :=
  Json.decode (int_max_str_digits W) (recursion_depth W) s.

(** [json.loads(s)]: the value, or [None] when it raises. *)
Definition json_loads (W : World) (s : text) : option pyval :=
  match json_loads_result W s with
  | inr v => Some v
  | inl _ => None
  end.

(** What [json.loads] raises: [JSONDecodeError] on a text that is not
    JSON, [RecursionError] or [ValueError] at a limit. *)
Definition json_exception (W : World) (e : Json.jerr) (s : text) : exn :=
  match e with
  | Json.Invalid => JSONDecodeError (json_error_text W e s)
  | Json.TooDeep | Json.TooLong => Exception (json_error_text W e s)
  end.

(** Computations that may raise, over the call log. *)
Definition M (A : Type) : Type := list call -> (exn + A) * list call.

Definition ret {A} (a : A) : M A := fun log => (inr a, log).

Definition raise {A} (e : exn) : M A := fun log => (inl e, log).

Definition bind {A B} (m : M A) (f : A -> M B) : M B :=
  fun log =>
    match m log with
    | (inr a, log') => f a log'
    | (inl e, log') => (inl e, log')
    end.

(** [try: body / except Exception as e: handler e] *)
Definition try_except {A} (body : M A) (handler : exn -> M A) : M A :=
  fun log =>
    match body log with
    | (inl e, log') => handler e log'
    | done => done
    end.

(** [try: body / except json.JSONDecodeError: handler]: any other
    exception goes on. *)
Definition try_except_JSONDecodeError {A} (body : M A) (handler : M A) : M A :=
  fun log =>
    match body log with
    | (inl (JSONDecodeError _), log') => handler log'
    | done => done
    end.

(** An entry in the call log. *)
Definition note (c : call) : M unit := fun log => (inr tt, log ++ [c]).

(** A call to a collaborator: logged, then its answer. *)
Definition ask {A} (c : call) (answer : exn + A) : M A :=
  fun log => (answer, log ++ [c]).

(** A pure function that raises: not logged. *)
Definition lift {A} (message : string) (r : option A) : M A :=
  match r with
  | Some a => ret a
  | None => raise (Exception (txt message))
  end.

Declare Scope py_scope.
Delimit Scope py_scope with py.
Notation "x <- m ;; k" := (bind m (fun x => k))
  (at level 61, m at next level, right associativity) : py_scope.
Notation "m ;;; k" := (bind m (fun _ => k))
  (at level 61, right associativity) : py_scope.

(** [str(e)] *)
Definition str_exn (W : World) (e : exn) : text :=
  match e with
  | Exception message => message
  | HTTPException status_code detail => str_HTTPException W status_code detail
  | JSONDecodeError message => message
  end.

(** [json.loads(s)] in a computation. *)
Definition loads (W : World) (s : text) : M pyval :=
  match json_loads_result W s with
  | inr v => ret v
  | inl e => raise (json_exception W e s)
  end.

(* ================================================================= *)
(** ** [backend/extractor.py] *)

Module Extractor.

Record GeminiExtractor := {
  _available : bool;
  model : option Model
}.

Definition unavailable : GeminiExtractor :=
  {| _available := false; model := None |}.

(** [GeminiExtractor.__init__], with the two settings of [config.py]. *)
Definition __init__ (W : World) (GEMINI_API_KEY GEMINI_MODEL : text)
  : GeminiExtractor :=
  match GEMINI_API_KEY with
  | [] => unavailable
  | _ :: _ =>
      match genai_configure W GEMINI_API_KEY with
      | inl _ => unavailable
      | inr _ =>
          let model_name :=
            match GEMINI_MODEL with
            | [] => txt "gemini-2.5-flash"
            | _ :: _ => GEMINI_MODEL
            end in
          match GenerativeModel W model_name with
          | inl _ => unavailable
          | inr m => {| _available := true; model := Some m |}
          end
      end
  end.

Definition is_available (self : GeminiExtractor) : bool := _available self.

(** The prompt of [extract_bytes], character for character. *)
Definition prompt : text := txt "
                Extract information from this student report image. Please provide:
                1. Student name
                2. Grade level
                3. Report year
                4. General comments (if any)
                5. Subject grades and teacher comments (if available)

                Format the response as JSON with these fields:
                - student_name: string
                - grade_level: string
                - report_year: string
                - general_comments: string
                - subjects: array of objects with name, grade, teacher_comment
                - raw_text: the full extracted text

                If information is not available, use empty strings or empty arrays.
                ".

(** [{"type": "error", "error": message}] *)
Definition error_result (message : text) : pyval :=
  PDict [(lit "type", PStr (lit "error")); (lit "error", PStr (u message))].

(** [{"type": "success", "data": data}] *)
Definition success_result (data : pyval) : pyval :=
  PDict [(lit "type", PStr (lit "success")); (lit "data", data)].

(** The dict built in the [except] branch of the JSON parse. *)
Definition fallback_data (extracted_text : text) : pyval :=
  PDict
    [ (lit "student_name",
        PStr (u (_extract_field extracted_text [txt "student"; txt "name"])));
      (lit "grade_level",
        PStr (u (_extract_field extracted_text [txt "grade"])));
      (lit "report_year",
        PStr (u (_extract_field extracted_text [txt "year"])));
      (lit "general_comments",
        PStr (u (_extract_field extracted_text [txt "comments"])));
      (lit "subjects", PList []);
      (lit "raw_text", PStr (u extracted_text)) ].

(** [self.model.generate_content([prompt, image])] then [.text]; without
    a [model] attribute the access raises. *)
Definition model_text (W : World) (self : GeminiExtractor) (image : Image)
  : M text :=
  match model self with
  | None =>
      raise (Exception
               (txt "'GeminiExtractor' object has no attribute 'model'"))
  | Some m =>
      ask (CallGenerateContent m prompt image) (generate_content W m prompt image)
  end.

Local Open Scope py_scope.

(** [GeminiExtractor.extract_bytes].  The [return] inside the inner
    [except] leaves the function: the inner [try] yields either the
    dict to return ([inl]) or the stripped text to go on with ([inr]).
    The calls to [logger] do not touch the control flow and are left out. *)
Definition extract_bytes (W : World) (self : GeminiExtractor)
           (image_bytes : bytes) : M pyval :=
  if negb (_available self) then
    ret (error_result (txt "Gemini API not available"))
  else
    try_except
      (image <- ask (CallImageOpen image_bytes) (Image_open W image_bytes) ;;
       step <- try_except
                 (response_text <- model_text W self image ;;
                  ret (inr (Str.strip response_text)))
                 (fun e => ret (inl (error_result (str_exn W e)))) ;;
       match step with
       | inl returned => ret returned
       | inr extracted_text =>
           data <- try_except
                     (loads W extracted_text)
                     (fun _ => ret (fallback_data extracted_text)) ;;
           ret (success_result data)
       end)
      (fun e =>
         ret (error_result (txt "Extraction failed: " ++ str_exn W e))).

End Extractor.

(* ================================================================= *)
(** ** [backend/main.py] *)

Module Main.

Import Extractor.
Local Open Scope py_scope.

(** The upload as the handler sees it: [content_type] is [None] when
    the part declares none, [read] is what [await image.read()] gives. *)
Record UploadFile := {
  filename : text;
  content_type : option text;
  read : exn + bytes
}.

(** [v[key]], raising [KeyError] *)
Definition getitem (v : pyval) (key : string) : M pyval :=
  lift "KeyError" (item v (lit key)).

Definition is_str (v : pyval) (s : string) : bool :=
  match v with
  | PStr x => ustr_eqb x (lit s)
  | _ => false
  end.

(** The handler of [POST /api/extract].  The module's [extractor] is a
    [GeminiExtractor], so [hasattr(extractor, 'extract_bytes')] holds and
    the temporary file branch is never taken. *)
Definition extract_text (W : World) (extractor : GeminiExtractor)
           (image : UploadFile) : M pyval :=
  declared <- lift "'NoneType' object has no attribute 'startswith'"
                   (content_type image) ;;
  if negb (Str.startswith declared (txt "image/")) then
    raise (HTTPException 400 (PStr (lit "File must be an image")))
  else
    try_except
      (content <- ask CallRead (read image) ;;
       result <- (note (CallExtractBytes content) ;;;
                  extract_bytes W extractor content) ;;
       type <- getitem result "type" ;;
       if is_str type "success" then
         data <- getitem result "data" ;;
         ret (PDict [(lit "success", PBool true); (lit "data", data)])
       else
         detail <- getitem result "error" ;;
         raise (HTTPException 500 detail))
      (fun e => raise (HTTPException 500 (PStr (u (str_exn W e))))).

(** [GET /api/health] *)
Definition health_check (extractor : GeminiExtractor) : pyval :=
  PDict [(lit "status", PStr (lit "healthy"));
         (lit "extractor_available", PBool (is_available extractor))].

Record Response := { status : Z; body : pyval }.

(** What FastAPI sends for the outcome of a handler: the returned value
    with status 200 when it can be rendered, an [HTTPException] as its
    status and [{"detail": detail}], and [500 Internal Server Error] for
    anything else, a value that cannot be rendered included. *)
Definition respond (W : World) (outcome : exn + pyval) : Response :=
  match outcome with
  | inr v =>
      if renders W v then {| status := 200; body := v |}
      else {| status := 500; body := PStr (lit "Internal Server Error") |}
  | inl (HTTPException status_code detail) =>
      {| status := status_code; body := PDict [(lit "detail", detail)] |}
  | inl (Exception _) | inl (JSONDecodeError _) =>
      {| status := 500; body := PStr (lit "Internal Server Error") |}
  end.

End Main.

(* ================================================================= *)
(** ** The specification's reading of the heuristic scan *)

Module Spec.

(** A line matches when it contains one of the keywords, case set aside. *)
Definition line_matches (keywords : list text) (line : text) : bool :=
  existsb (fun k => Str.contains (Str.lower k) (Str.lower line)) keywords.

(** The scan as the specification words it: line by line, the first line
    that contains an associated keyword, trimmed; the empty string when
    no line matches. *)
Definition scan_field (text_ : text) (keywords : list text) : text :=
  match find (line_matches keywords) (Str.split_lines text_) with
  | Some line => Str.strip line
  | None => []
  end.

End Spec.

(** A keyword that holds no newline, as every keyword of the program. *)
Definition single_line (k : text) : bool :=
  forallb (fun c => negb (Ascii.eqb c newline)) k.

(** One keyword: the first line that contains it as it stands, trimmed,
    or the empty string. *)
Definition scan_one (t k : text) : text :=
  match find (fun l => Str.contains k (Str.lower l)) (Str.split_lines t) with
  | Some line => Str.strip line
  | None => []
  end.

(** A value without floats and without surrogates: one that is
    rendered whatever the encoder, its nesting apart. *)
Fixpoint plain (v : pyval) : bool :=
  match v with
  | PNone | PBool _ | PInt _ => true
  | PFloat _ => false
  | PStr s => forallb (fun c => (c <? 55296) || (57343 <? c))%N s
  | PList items => forallb plain items
  | PDict entries =>
      forallb (fun kv =>
                 match kv with
                 | (k, x) =>
                     forallb (fun c => (c <? 55296) || (57343 <? c))%N k
                     && plain x
                 end)
              entries
  end.

(** A deterministic stand-in for the collaborators: the decoder answers
    [decoded] and the model answers [answer], whatever they are given.
    Its interpreter lets 900 containers nest and converts integers of up
    to 4300 digits; its FastAPI renders the [plain] values. *)
Definition stub (decoded : exn + Image) (answer : exn + text) : World :=
  {| genai_configure := fun _ => inr tt;
     GenerativeModel := fun name => inr {| model_name := name |};
     Image_open := fun _ => decoded;
     generate_content := fun _ _ _ => answer;
     str_HTTPException := fun _ _ => [];
     recursion_depth := 900;
     int_max_str_digits := 4300;
     json_error_text :=
       fun e _ =>
         match e with
         | Json.Invalid => txt "Expecting value"
         | Json.TooDeep => txt "maximum recursion depth exceeded"
         | Json.TooLong =>
             txt "Exceeds the limit (4300 digits) for integer string conversion"
         end;
     renders := plain |}.

(** The two shapes [extract_bytes] may return. *)
Definition well_formed_result (r : pyval) : Prop :=
  (exists data, r = Extractor.success_result data)
  \/ (exists message, r = Extractor.error_result message).

(** How often the log shows the gateway's [extract_bytes] being entered. *)
Definition extract_calls (log : list call) : nat :=
  List.length
    (filter (fun c => match c with CallExtractBytes _ => true | _ => false end)
            log).

(** How often the log shows the model being called. *)
Definition model_calls (log : list call) : nat :=
  List.length
    (filter (fun c => match c with CallGenerateContent _ _ _ => true
                              | _ => false end)
            log).

(** How often the log shows an attempt to decode an image. *)
Definition decode_calls (log : list call) : nat :=
  List.length
    (filter (fun c => match c with CallImageOpen _ => true | _ => false end)
            log).

(** Two lines of text. *)
Definition lines2 (a b : string) : text := txt a ++ newline :: txt b.

(** The shape [ExtractedFields] of the specification's data model: an
    object whose four scalar fields and [raw_text] are strings and whose
    [subjects] is an array of objects with the strings [name], [grade] and
    [teacher_comment]. *)
Definition has_string (d : list (ustr * pyval)) (k : string) : bool :=
  match dict_get d (lit k) with
  | Some (PStr _) => true
  | _ => false
  end.

Definition is_subject (v : pyval) : bool :=
  match v with
  | PDict d => forallb (has_string d) ["name"; "grade"; "teacher_comment"]%string
  | _ => false
  end.

Definition ExtractedFields (v : pyval) : bool :=
  match v with
  | PDict d =>
      forallb (has_string d)
              ["student_name"; "grade_level"; "report_year";
               "general_comments"; "raw_text"]%string
      && match dict_get d (lit "subjects") with
         | Some (PList subjects) => forallb is_subject subjects
         | _ => false
         end
  | _ => false
  end.

(** A ready gateway, an image and its bytes, for the examples. *)
Definition ready : Extractor.GeminiExtractor :=
  {| Extractor._available := true;
     Extractor.model := Some {| model_name := txt "gemini-2.5-flash" |} |}.

Definition an_image : Image := {| pixels := [] |}.

(** A world with the limits of a default interpreter. *)
Definition default_world : World := stub (inr an_image) (inr []).

(** The number of characters of a text that are not white space. *)
Definition weight (s : text) : nat :=
  List.length (filter (fun c => negb (Str.isspace c)) s).

(** Appending [w] to what a scanner left over. *)
Definition with_rest {A} (w : text) (r : option (A * text))
  : option (A * text) :=
  match r with
  | Some (a, rest) => Some (a, rest ++ w)
  | None => None
  end.

(** The same for a scan of a value. *)
Definition scanned_with_rest (w : text) (r : Json.scanned) : Json.scanned :=
  match r with
  | inr (v, rest) => inr (v, rest ++ w)
  | inl e => inl e
  end.

(** How often the log shows the upload being read. *)
Definition read_calls (log : list call) : nat :=
  List.length
    (filter (fun c => match c with CallRead => true | _ => false end) log).

(** Nothing but white space ([str.isspace]). *)
Definition all_space (w : text) : bool := forallb Str.isspace w.

(** Empty, or starting with white space. *)
Definition blank_head (x : text) : bool :=
  match x with
  | [] => true
  | c :: _ => Str.isspace c
  end.

(** A model answer in the shape the prompt asks for, with white space
    around it, and the value it stands for. *)
Definition sample_answer : text :=
  quoted "
  {'student_name': 'Jane Doe', 'grade_level': '5', 'report_year': '2024',
   'general_comments': '',
   'subjects': [{'name': 'Math', 'grade': 'A', 'teacher_comment': 'Good'}],
   'raw_text': 'Jane Doe, Grade 5, 2024'}
  ".

Definition sample_fields : pyval :=
  PDict
    [ (lit "student_name", PStr (lit "Jane Doe"));
      (lit "grade_level", PStr (lit "5"));
      (lit "report_year", PStr (lit "2024"));
      (lit "general_comments", PStr []);
      (lit "subjects",
        PList [PDict [ (lit "name", PStr (lit "Math"));
                       (lit "grade", PStr (lit "A"));
                       (lit "teacher_comment", PStr (lit "Good")) ]]);
      (lit "raw_text", PStr (lit "Jane Doe, Grade 5, 2024")) ].

(* ================================================================= *)
(** ** [backend/config.py] and the start of the process *)

Module Config.

(** The process environment, once [load_dotenv()] has run. *)
Definition environ := text -> option text.

(** [os.getenv(name, default)] *)
Definition getenv (env : environ) (name : string) (default : text) : text :=
  match env (txt name) with
  | Some value => value
  | None => default
  end.

Record settings := {
  GEMINI_API_KEY : text;
  GEMINI_MODEL : text
}.

(** Importing the module: its two settings, or the [ValueError] of its
    last statement. *)
Definition load (env : environ) : exn + settings :=
  let key := getenv env "GEMINI_API_KEY" [] in
  let model := getenv env "GEMINI_MODEL" (txt "gemini-2.5-flash") in
  match key with
  | [] =>
      inl (Exception
             (txt "GEMINI_API_KEY not found in environment variables"))
  | _ :: _ => inr {| GEMINI_API_KEY := key; GEMINI_MODEL := model |}
  end.

End Config.

(** The module level of [main.py] up to [extractor = GeminiExtractor()]:
    [config] is imported first, and its exception stops the process. *)
Definition startup (W : World) (env : Config.environ)
  : exn + Extractor.GeminiExtractor :=
  match Config.load env with
  | inl e => inl e
  | inr c =>
      inr (Extractor.__init__ W (Config.GEMINI_API_KEY c)
                              (Config.GEMINI_MODEL c))
  end.

(** The name [__init__] asks [genai.GenerativeModel] for. *)
Definition model_asked (GEMINI_MODEL : text) : text :=
  match GEMINI_MODEL with
  | [] => txt "gemini-2.5-flash"
  | _ :: _ => GEMINI_MODEL
  end.

(* ================================================================= *)
(** ** [GeminiExtractor.extract_text]: the image given by its path *)

(** The file system as [extract_text] meets it.  Looking at it leaves no
    entry in the call log. *)
Record Files := {
  (** [Path(image_path).exists()] *)
  path_exists : text -> bool;
  (** [Image.open(image_path)] *)
  Image_open_path : text -> exn + Image
}.

Module ExtractorPath.

Import Extractor.
Local Open Scope py_scope.

(** The prompt of [extract_text], character for character. *)
Definition prompt : text := txt "
            Extract information from this student report image. Please provide:
            1. Student name
            2. Grade level
            3. Report year
            4. General comments (if any)
            5. Subject grades and teacher comments (if available)

            Format the response as JSON with these fields:
            - student_name: string
            - grade_level: string
            - report_year: string
            - general_comments: string
            - subjects: array of objects with name, grade, teacher_comment
            - raw_text: the full extracted text

            If information is not available, use empty strings or empty arrays.
            ".

(** A look at the file system. *)
Definition consult {A} (answer : exn + A) : M A := fun log => (answer, log).

Definition model_text (W : World) (self : GeminiExtractor) (image : Image)
  : M text :=
  match model self with
  | None =>
      raise (Exception
               (txt "'GeminiExtractor' object has no attribute 'model'"))
  | Some m =>
      ask (CallGenerateContent m prompt image) (generate_content W m prompt image)
  end.

(** [GeminiExtractor.extract_text].  The parse is guarded by
    [except json.JSONDecodeError] only: what [json.loads] raises at one of
    its limits reaches the outer handler. *)
Definition extract_text (W : World) (F : Files) (self : GeminiExtractor)
           (image_path : text) : M pyval :=
  if negb (_available self) then
    ret (error_result (txt "Gemini API not available"))
  else if negb (path_exists F image_path) then
    ret (error_result (txt "File not found"))
  else
    try_except
      (image <- consult (Image_open_path F image_path) ;;
       step <- try_except
                 (response_text <- model_text W self image ;;
                  ret (inr (Str.strip response_text)))
                 (fun e => ret (inl (error_result (str_exn W e)))) ;;
       match step with
       | inl returned => ret returned
       | inr extracted_text =>
           data <- try_except_JSONDecodeError
                     (loads W extracted_text)
                     (ret (fallback_data extracted_text)) ;;
           ret (success_result data)
       end)
      (fun e =>
         ret (error_result (txt "Extraction failed: " ++ str_exn W e))).

End ExtractorPath.

(** A file system with one readable image. *)
Definition one_file (path : text) (image : exn + Image) : Files :=
  {| path_exists := fun p => if list_eq_dec ascii_dec p path then true else false;
     Image_open_path := fun _ => image |}.

(* ================================================================= *)
(** * Properties *)

(** ** Lines and keywords *)

Section TextFacts.

Import Str.

Lemma lower_char_newline (c : ascii) :
  Ascii.eqb (lower_char c) newline = Ascii.eqb c newline.
Proof. destruct c as [[] [] [] [] [] [] [] []]; reflexivity. Qed.

Lemma split_lines_not_nil (s : text) : split_lines s <> [].
Proof.
  destruct s as [|c r]; simpl; [discriminate|].
  destruct (Ascii.eqb c newline); [discriminate|].
  destruct (split_lines r); discriminate.
Qed.

Lemma split_lines_lower (s : text) :
  split_lines (lower s) = map lower (split_lines s).
Proof.
  induction s as [|c r IH]; simpl; [reflexivity|].
  rewrite lower_char_newline.
  destruct (Ascii.eqb c newline); simpl.
  - now rewrite <- IH.
  - fold (lower r). rewrite IH.
    destruct (split_lines r) eqn:E; [|reflexivity].
    now apply split_lines_not_nil in E.
Qed.

Lemma startswith_first_line (k r l : text) (ls : list text) :
  single_line k = true ->
  split_lines r = l :: ls ->
  startswith r k = startswith l k.
Proof.
  revert r l ls.
  induction k as [|a k IH]; intros r l ls Hk Hr.
  - now destruct r, l.
  - simpl in Hk. apply andb_true_iff in Hk as [Ha Hk].
    destruct r as [|b r]; simpl in Hr.
    + now inversion Hr.
    + destruct (Ascii.eqb b newline) eqn:Eb.
      * inversion Hr; subst. simpl.
        apply Ascii.eqb_eq in Eb. subst b.
        apply negb_true_iff in Ha. now rewrite Ha.
      * destruct (split_lines r) as [|l' ls'] eqn:Er.
        { now apply split_lines_not_nil in Er. }
        injection Hr as Hl Hls. subst l ls. simpl.
        now rewrite (IH r l' ls' Hk Er).
Qed.

(** A keyword without a newline occurs in a text exactly when it occurs
    in one of its lines. *)
Lemma contains_split_lines (k s : text) :
  single_line k = true ->
  contains k s = existsb (contains k) (split_lines s).
Proof.
  intros Hk. induction s as [|c r IH].
  - cbn [split_lines existsb]. now rewrite orb_false_r.
  - cbn [split_lines].
    destruct (Ascii.eqb c newline) eqn:Ec.
    + cbn [existsb contains]. rewrite <- IH.
      apply Ascii.eqb_eq in Ec. subst c.
      destruct k as [|a k]; [reflexivity|].
      simpl in Hk. apply andb_true_iff in Hk as [Ha _].
      apply negb_true_iff in Ha.
      cbn [startswith]. now rewrite Ha.
    + destruct (split_lines r) as [|l ls] eqn:Er.
      { now apply split_lines_not_nil in Er. }
      cbn [existsb contains]. rewrite IH. cbn [existsb].
      assert (Hs : startswith (c :: r) k = startswith (c :: l) k).
      { destruct k as [|a k]; [reflexivity|].
        cbn [startswith]. f_equal.
        simpl in Hk. apply andb_true_iff in Hk as [_ Hk].
        now apply startswith_first_line with (ls := ls). }
      rewrite Hs. now rewrite orb_assoc.
Qed.

Lemma existsb_map_lower (f : text -> bool) (ls : list text) :
  existsb f (map lower ls) = existsb (fun l => f (lower l)) ls.
Proof. induction ls as [|l ls IH]; simpl; [reflexivity | now rewrite IH]. Qed.

(** The test that guards the scan of a keyword agrees with the scan. *)
Lemma contains_lower_lines (k t : text) :
  single_line k = true ->
  contains k (lower t)
  = existsb (fun l => contains k (lower l)) (split_lines t).
Proof.
  intros Hk.
  now rewrite contains_split_lines, split_lines_lower, existsb_map_lower.
Qed.

Lemma first_line_with_find (k : text) (ls : list text) :
  first_line_with k ls
  = option_map strip (find (fun l => contains k (lower l)) ls).
Proof.
  induction ls as [|l ls IH]; simpl; [reflexivity|].
  now destruct (contains k (lower l)).
Qed.

Lemma existsb_find {A} (f : A -> bool) (l : list A) :
  existsb f l = true -> exists x, find f l = Some x.
Proof.
  induction l as [|a l IH]; simpl; [discriminate|].
  destruct (f a); [now exists a | exact IH].
Qed.

Lemma find_none_existsb {A} (f : A -> bool) (l : list A) :
  existsb f l = false -> find f l = None.
Proof.
  induction l as [|a l IH]; simpl; [reflexivity|].
  destruct (f a); [discriminate | exact IH].
Qed.

Lemma find_ext_eq {A} (f g : A -> bool) (l : list A) :
  (forall x, f x = g x) -> find f l = find g l.
Proof.
  intros H. induction l as [|a l IH]; simpl; [reflexivity|].
  now rewrite H, IH.
Qed.

Lemma extract_field_skip (t k : text) (rest : list text) :
  contains k (lower t) = false ->
  _extract_field t (k :: rest) = _extract_field t rest.
Proof. intros H. simpl. now rewrite H. Qed.

Lemma extract_field_commit (t k : text) (rest : list text) :
  single_line k = true ->
  contains k (lower t) = true ->
  _extract_field t (k :: rest) = scan_one t k.
Proof.
  intros Hk H. simpl. rewrite H.
  rewrite contains_lower_lines in H by exact Hk.
  apply existsb_find in H as [line Hline].
  unfold scan_one. rewrite first_line_with_find, Hline. reflexivity.
Qed.

Lemma extract_field_single (t k : text) :
  single_line k = true ->
  _extract_field t [k] = scan_one t k.
Proof.
  intros Hk. destruct (contains k (lower t)) eqn:H.
  - now apply extract_field_commit.
  - rewrite extract_field_skip by exact H. simpl.
    rewrite contains_lower_lines in H by exact Hk.
    unfold scan_one. now rewrite (find_none_existsb _ _ H).
Qed.

Lemma scan_field_one (t k : text) :
  lower k = k -> Spec.scan_field t [k] = scan_one t k.
Proof.
  intros Hk. unfold Spec.scan_field, scan_one.
  rewrite (find_ext_eq (Spec.line_matches [k])
                       (fun l => contains k (lower l))); [reflexivity|].
  intros l. unfold Spec.line_matches. simpl.
  now rewrite Hk, orb_false_r.
Qed.

Lemma find_app_skip {A} (f : A -> bool) (before : list A) (x : A)
      (after : list A) :
  forallb (fun y => negb (f y)) before = true ->
  f x = true ->
  find f (before ++ x :: after) = Some x.
Proof.
  intros Hb Hx. induction before as [|b before IH]; simpl.
  - now rewrite Hx.
  - simpl in Hb. apply andb_true_iff in Hb as [Hb1 Hb2].
    apply negb_true_iff in Hb1. rewrite Hb1. now apply IH.
Qed.

End TextFacts.

(* ================================================================= *)
(** ** [json.loads] and white space

    [json.loads] gives the same value before and after [str.strip]: the
    scanners never look past the value into white space that follows it,
    and a value neither starts nor ends with white space. *)

Section JsonFacts.

Import Json.

Ltac by_char c :=
  destruct c as [[] [] [] [] [] [] [] []];
  vm_compute; try reflexivity; intros; discriminate.

Lemma space_neq (c x : ascii) :
  Str.isspace c = true -> Str.isspace x = false -> Ascii.eqb c x = false.
Proof.
  intros Hc Hx. apply Ascii.eqb_neq. intros ->. congruence.
Qed.

Lemma ws_is_space (c : ascii) : is_ws c = true -> Str.isspace c = true.
Proof. by_char c. Qed.

Lemma space_not_digit (c : ascii) : Str.isspace c = true -> is_digit c = false.
Proof. by_char c. Qed.

Lemma space_not_hex (c : ascii) : Str.isspace c = true -> hexval c = None.
Proof. by_char c. Qed.

Lemma space_not_escape (c : ascii) :
  Str.isspace c = true -> BACKSLASH c = None.
Proof. by_char c. Qed.

Lemma all_space_cons (c : ascii) (w : text) :
  all_space (c :: w) = true -> Str.isspace c = true /\ all_space w = true.
Proof. intros H. now apply andb_true_iff in H. Qed.

Lemma all_space_blank_head (w : text) :
  all_space w = true -> blank_head w = true.
Proof. destruct w; [reflexivity|]. intros H. now apply all_space_cons in H. Qed.

Lemma skip_ws_all_space (w : text) :
  all_space w = true -> all_space (skip_ws w) = true.
Proof.
  induction w as [|c w IH]; [reflexivity|].
  intros H. simpl. destruct (is_ws c); [|exact H].
  apply all_space_cons in H as [_ H]. now apply IH.
Qed.

(** White space skipped in front of [s ++ w], [w] blank: either [s] has
    something after its white space and the skip stops there, or the skip
    runs into [w]. *)
Lemma skip_ws_app (s w : text) :
  all_space w = true ->
  (exists c r, skip_ws s = c :: r /\ skip_ws (s ++ w) = c :: r ++ w)
  \/ (skip_ws s = [] /\ blank_head (skip_ws (s ++ w)) = true).
Proof.
  intros Hw. induction s as [|c s IH]; simpl.
  - right. split; [reflexivity|].
    apply all_space_blank_head. now apply skip_ws_all_space.
  - destruct (is_ws c); [exact IH|].
    left. now exists c, s.
Qed.

Lemma skip_ws_app_nil (a b : text) : skip_ws (a ++ b) = [] -> skip_ws a = [].
Proof.
  induction a as [|c a IH]; simpl; [reflexivity|].
  destruct (is_ws c); [exact IH | discriminate].
Qed.

(** *** String literals *)

Lemma scanstring_from_blank (w : text) :
  all_space w = true ->
  forall st acc, scanstring_from st w acc = None.
Proof.
  induction w as [|c w IH]; intros Hw st acc; [reflexivity|].
  apply all_space_cons in Hw as [Hc Hw].
  destruct st; cbn [scanstring_from].
  - rewrite (space_neq c dquote Hc eq_refl).
    rewrite (space_neq c backslash Hc eq_refl).
    destruct (N_of_ascii c <? 32)%N; [reflexivity | now apply IH].
  - rewrite (space_neq c "u" Hc eq_refl).
    now rewrite (space_not_escape c Hc).
  - now rewrite (space_not_hex c Hc).
Qed.

Lemma scanstring_from_app (w : text) :
  all_space w = true ->
  forall s st acc,
    scanstring_from st (s ++ w) acc = with_rest w (scanstring_from st s acc).
Proof.
  intros Hw. induction s as [|c s IH]; intros st acc.
  - cbn [app]. now rewrite scanstring_from_blank.
  - destruct st; cbn [app scanstring_from].
    + destruct (Ascii.eqb c dquote); [reflexivity|].
      destruct (Ascii.eqb c backslash); [apply IH|].
      destruct (N_of_ascii c <? 32)%N; [reflexivity | apply IH].
    + destruct (Ascii.eqb c "u"); [apply IH|].
      destruct (BACKSLASH c); [apply IH | reflexivity].
    + destruct (hexval c); [|reflexivity].
      destruct remaining as [|[|k]]; [reflexivity | apply IH | apply IH].
Qed.

Lemma scanstring_app (w s : text) :
  all_space w = true ->
  scanstring (s ++ w) = with_rest w (scanstring s).
Proof. intros Hw. now apply scanstring_from_app. Qed.

(** *** Numbers *)

Lemma span_digits_blank (x : text) :
  blank_head x = true -> span_digits x = ([], x).
Proof.
  destruct x as [|c x]; [reflexivity|].
  intros H. simpl. now rewrite (space_not_digit c H).
Qed.

Lemma span_digits_app (w s : text) :
  blank_head w = true ->
  span_digits (s ++ w) = (fst (span_digits s), snd (span_digits s) ++ w).
Proof.
  intros Hw. induction s as [|c s IH].
  - cbn [app]. now rewrite span_digits_blank.
  - cbn [app span_digits]. destruct (is_digit c); [|reflexivity].
    rewrite IH. now destruct (span_digits s).
Qed.

Lemma match_frac_app (w s : text) :
  blank_head w = true ->
  match_frac (s ++ w) = (fst (match_frac s), snd (match_frac s) ++ w).
Proof.
  intros Hw. destruct s as [|c s].
  - destruct w as [|c w]; [reflexivity|].
    cbn [app match_frac]. now rewrite (space_neq c "." Hw eq_refl).
  - cbn [app match_frac]. destruct (Ascii.eqb c "."); [|reflexivity].
    rewrite (span_digits_app w s Hw).
    destruct (span_digits s) as [[|d ds] rest]; reflexivity.
Qed.

Lemma match_exp_app (w s : text) :
  blank_head w = true ->
  match_exp (s ++ w) = (fst (match_exp s), snd (match_exp s) ++ w).
Proof.
  intros Hw. destruct s as [|c s].
  - destruct w as [|c w]; [reflexivity|].
    cbn [app match_exp].
    now rewrite (space_neq c "e" Hw eq_refl), (space_neq c "E" Hw eq_refl).
  - cbn [app match_exp].
    destruct (Ascii.eqb c "e" || Ascii.eqb c "E"); [|reflexivity].
    destruct s as [|c1 s].
    + cbn [app]. destruct w as [|c1 w]; [reflexivity|].
      rewrite (space_neq c1 "-" Hw eq_refl), (space_neq c1 "+" Hw eq_refl).
      cbn [orb]. now rewrite (span_digits_blank (c1 :: w) Hw).
    + cbn [app].
      destruct (Ascii.eqb c1 "-" || Ascii.eqb c1 "+").
      * rewrite (span_digits_app w s Hw).
        destruct (span_digits s) as [[|d ds] rest]; reflexivity.
      * change (c1 :: s ++ w) with ((c1 :: s) ++ w).
        rewrite (span_digits_app w (c1 :: s) Hw).
        destruct (span_digits (c1 :: s)) as [[|d ds] rest]; reflexivity.
Qed.

Lemma match_integer_blank (x : text) :
  blank_head x = true -> match_integer x = None.
Proof.
  destruct x as [|c x]; [reflexivity|].
  intros H. unfold match_integer.
  rewrite (space_neq c "-" H eq_refl), (space_neq c "0" H eq_refl).
  now rewrite (space_not_digit c H).
Qed.

Lemma match_integer_app (w s : text) :
  blank_head w = true ->
  match_integer (s ++ w) = with_rest w (match_integer s).
Proof.
  intros Hw.
  assert (G : forall sign t,
             match t ++ w with
             | [] => None
             | c :: r =>
                 if Ascii.eqb c "0" then Some (sign ++ [c], r)
                 else if is_digit c then
                        let (d, rest) := span_digits r in
                        Some (sign ++ c :: d, rest)
                      else None
             end
             = with_rest w
                 match t with
                 | [] => None
                 | c :: r =>
                     if Ascii.eqb c "0" then Some (sign ++ [c], r)
                     else if is_digit c then
                            let (d, rest) := span_digits r in
                            Some (sign ++ c :: d, rest)
                          else None
                 end).
  { intros sign [|c r].
    - cbn [app]. destruct w as [|c w]; [reflexivity|].
      rewrite (space_neq c "0" Hw eq_refl). now rewrite (space_not_digit c Hw).
    - cbn [app]. destruct (Ascii.eqb c "0"); [reflexivity|].
      destruct (is_digit c); [|reflexivity].
      rewrite (span_digits_app w r Hw). now destruct (span_digits r). }
  destruct s as [|c s].
  - cbn [app]. now rewrite match_integer_blank.
  - unfold match_integer. cbn [app].
    destruct (Ascii.eqb c "-").
    + apply G.
    + apply (G [] (c :: s)).
Qed.

Lemma match_number_app (w s : text) :
  blank_head w = true ->
  match_number (s ++ w)
  = match match_number s with
    | Some (integer, frac, exp, rest) => Some (integer, frac, exp, rest ++ w)
    | None => None
    end.
Proof.
  intros Hw. unfold match_number.
  rewrite (match_integer_app w s Hw).
  destruct (match_integer s) as [[integer r]|]; [|reflexivity].
  cbn [with_rest].
  rewrite (match_frac_app w r Hw).
  destruct (match_frac r) as [frac r1]. cbn [fst snd].
  rewrite (match_exp_app w r1 Hw).
  now destruct (match_exp r1) as [exp r2].
Qed.

(** *** The constants *)

Lemma after_prefix_app (p w s : text) :
  blank_head w = true ->
  forallb (fun c => negb (Str.isspace c)) p = true ->
  after_prefix p (s ++ w) = option_map (fun r => r ++ w) (after_prefix p s).
Proof.
  intros Hw. revert s. induction p as [|a p IH]; intros s Hp.
  - reflexivity.
  - cbn [forallb] in Hp. apply andb_true_iff in Hp as [Ha Hp].
    apply negb_true_iff in Ha.
    destruct s as [|b s].
    + cbn [app]. destruct w as [|c w]; [reflexivity|].
      cbn [after_prefix]. rewrite Ascii.eqb_sym.
      now rewrite (space_neq c a Hw Ha).
    + cbn [app after_prefix]. destruct (Ascii.eqb a b); [|reflexivity].
      now apply IH.
Qed.

Lemma literal_app (p : string) (v : pyval) (w s : text) :
  blank_head w = true ->
  forallb (fun c => negb (Str.isspace c)) (txt p) = true ->
  literal p v (s ++ w) = with_rest w (literal p v s).
Proof.
  intros Hw Hp. unfold literal.
  rewrite (after_prefix_app (txt p) w s Hw Hp).
  now destruct (after_prefix (txt p) s).
Qed.

(** *** Containers *)

Lemma fuel_app_space_r (s w : text) :
  all_space w = true -> fuel (s ++ w) = fuel s.
Proof.
  intros Hw. unfold fuel. rewrite filter_app, length_app.
  replace (filter (fun c => negb (Str.isspace c)) w) with (@nil ascii);
    [simpl; lia|].
  induction w as [|c w IH]; [reflexivity|].
  apply all_space_cons in Hw as [Hc Hw]. simpl. rewrite Hc. now apply IH.
Qed.

Section ContainerFacts.

Variable w : text.
Hypothesis Hw : all_space w = true.

Variable scan : text -> scanned.
Hypothesis scan_app :
  forall s, scan (s ++ w) = scanned_with_rest w (scan s).
Hypothesis scan_blank :
  forall x, blank_head x = true -> scan x = inl Invalid.

(** The scanner of nested values after skipped white space. *)
Lemma scan_skip_ws_app (s : text) :
  scan (skip_ws (s ++ w)) = scanned_with_rest w (scan (skip_ws s)).
Proof.
  destruct (skip_ws_app s w Hw) as [(c & r & E1 & E2) | [E1 E2]].
  - rewrite E1, E2. apply (scan_app (c :: r)).
  - rewrite E1, (scan_blank _ E2). now rewrite scan_blank.
Qed.

Lemma array_loop_blank (k : nat) (x : text) (acc : list pyval) :
  blank_head x = true -> array_loop scan k x acc = inl Invalid.
Proof.
  intros Hx. destruct k; [reflexivity|]. simpl. now rewrite scan_blank.
Qed.

Lemma array_loop_app (k : nat) :
  forall (s : text) (acc : list pyval),
    array_loop scan k (s ++ w) acc
    = scanned_with_rest w (array_loop scan k s acc).
Proof.
  induction k as [|k IH]; intros s acc; [reflexivity|].
  cbn [array_loop]. rewrite scan_app.
  destruct (scan s) as [e|[v r]]; [reflexivity|].
  cbn [scanned_with_rest].
  destruct (skip_ws_app r w Hw) as [(c & r' & E1 & E2) | [E1 E2]].
  - rewrite E1, E2.
    destruct (Ascii.eqb c "]"); [reflexivity|].
    destruct (Ascii.eqb c ","); [|reflexivity].
    destruct (skip_ws_app r' w Hw) as [(c1 & r1 & F1 & F2) | [F1 F2]].
    + rewrite F1, F2. apply (IH (c1 :: r1)).
    + rewrite F1, (array_loop_blank k _ _ F2).
      now rewrite array_loop_blank.
  - rewrite E1.
    destruct (skip_ws (r ++ w)) as [|c x]; [reflexivity|].
    cbn [blank_head] in E2.
    now rewrite (space_neq c "]" E2 eq_refl), (space_neq c "," E2 eq_refl).
Qed.

Lemma JSONArray_app (s : text) :
  JSONArray scan (s ++ w) = scanned_with_rest w (JSONArray scan s).
Proof.
  unfold JSONArray. rewrite (fuel_app_space_r s w Hw).
  destruct (skip_ws_app s w Hw) as [(c & r & E1 & E2) | [E1 E2]].
  - rewrite E1, E2.
    destruct (Ascii.eqb c "]"); [reflexivity|].
    apply (array_loop_app (fuel s) (c :: r)).
  - rewrite E1.
    destruct (skip_ws (s ++ w)) as [|c x].
    + now rewrite array_loop_blank.
    + cbn [blank_head] in E2.
      rewrite (space_neq c "]" E2 eq_refl).
      now rewrite !array_loop_blank.
Qed.

Lemma object_loop_app (k : nat) :
  forall (s : text) (acc : list (ustr * pyval)),
    object_loop scan k (s ++ w) acc
    = scanned_with_rest w (object_loop scan k s acc).
Proof.
  induction k as [|k IH]; intros s acc; [reflexivity|].
  cbn [object_loop]. rewrite (scanstring_app w s Hw).
  destruct (scanstring s) as [[key r]|]; [|reflexivity].
  cbn [with_rest].
  destruct (skip_ws_app r w Hw) as [(c & r1 & E1 & E2) | [E1 E2]].
  - rewrite E1, E2.
    destruct (Ascii.eqb c ":"); [|reflexivity].
    rewrite scan_skip_ws_app.
    destruct (scan (skip_ws r1)) as [e|[v r2]]; [reflexivity|].
    cbn [scanned_with_rest].
    destruct (skip_ws_app r2 w Hw) as [(c2 & r3 & F1 & F2) | [F1 F2]].
    + rewrite F1, F2.
      destruct (Ascii.eqb c2 "}"); [reflexivity|].
      destruct (Ascii.eqb c2 ","); [|reflexivity].
      destruct (skip_ws_app r3 w Hw) as [(c3 & r4 & G1 & G2) | [G1 G2]].
      * rewrite G1, G2.
        destruct (Ascii.eqb c3 dquote); [apply IH | reflexivity].
      * rewrite G1.
        destruct (skip_ws (r3 ++ w)) as [|c3 x]; [reflexivity|].
        cbn [blank_head] in G2.
        now rewrite (space_neq c3 dquote G2 eq_refl).
    + rewrite F1.
      destruct (skip_ws (r2 ++ w)) as [|c2 x]; [reflexivity|].
      cbn [blank_head] in F2.
      now rewrite (space_neq c2 "}" F2 eq_refl), (space_neq c2 "," F2 eq_refl).
  - rewrite E1.
    destruct (skip_ws (r ++ w)) as [|c x]; [reflexivity|].
    cbn [blank_head] in E2.
    now rewrite (space_neq c ":" E2 eq_refl).
Qed.

Lemma JSONObject_app (s : text) :
  JSONObject scan (s ++ w) = scanned_with_rest w (JSONObject scan s).
Proof.
  unfold JSONObject. rewrite (fuel_app_space_r s w Hw).
  destruct (skip_ws_app s w Hw) as [(c & r & E1 & E2) | [E1 E2]].
  - rewrite E1, E2.
    destruct (Ascii.eqb c "}"); [reflexivity|].
    destruct (Ascii.eqb c dquote); [apply object_loop_app | reflexivity].
  - rewrite E1.
    destruct (skip_ws (s ++ w)) as [|c x]; [reflexivity|].
    cbn [blank_head] in E2.
    now rewrite (space_neq c "}" E2 eq_refl), (space_neq c dquote E2 eq_refl).
Qed.

End ContainerFacts.

(** *** Values *)

Lemma invalid_if_none_app (w : text) (o : option (pyval * text)) :
  invalid_if_none (with_rest w o) = scanned_with_rest w (invalid_if_none o).
Proof. now destruct o as [[v r]|]. Qed.

(** No value starts with white space. *)
Lemma scan_once_blank (max_digits depth : nat) (x : text) :
  blank_head x = true -> scan_once max_digits depth x = inl Invalid.
Proof.
  intros Hx. destruct x as [|c x]; [now destruct depth|].
  cbn [blank_head] in Hx.
  destruct depth; cbn [scan_once];
    rewrite (space_neq c dquote Hx eq_refl), (space_neq c "{" Hx eq_refl),
      (space_neq c "[" Hx eq_refl), (space_neq c "n" Hx eq_refl),
      (space_neq c "t" Hx eq_refl), (space_neq c "f" Hx eq_refl);
    unfold match_number; rewrite (match_integer_blank (c :: x) Hx);
    now rewrite (space_neq c "N" Hx eq_refl), (space_neq c "I" Hx eq_refl),
      (space_neq c "-" Hx eq_refl).
Qed.

(** The values that hold no other value, scanned in front of white space. *)
Lemma scan_flat_app (w : text) (max_digits : nat) (c : ascii) (s : text) :
  all_space w = true ->
  (if Ascii.eqb c "n" then
     invalid_if_none (literal "null" PNone ((c :: s) ++ w))
   else if Ascii.eqb c "t" then
     invalid_if_none (literal "true" (PBool true) ((c :: s) ++ w))
   else if Ascii.eqb c "f" then
     invalid_if_none (literal "false" (PBool false) ((c :: s) ++ w))
   else
     match match_number ((c :: s) ++ w) with
     | Some (integer, frac, exp, rest) =>
         match number max_digits integer frac exp with
         | inl e => inl e
         | inr v => inr (v, rest)
         end
     | None =>
         if Ascii.eqb c "N" then
           invalid_if_none (literal "NaN" (PFloat (txt "NaN")) ((c :: s) ++ w))
         else if Ascii.eqb c "I" then
           invalid_if_none
             (literal "Infinity" (PFloat (txt "Infinity")) ((c :: s) ++ w))
         else if Ascii.eqb c "-" then
           invalid_if_none
             (literal "-Infinity" (PFloat (txt "-Infinity")) ((c :: s) ++ w))
         else inl Invalid
     end)
  = scanned_with_rest w
      (if Ascii.eqb c "n" then
         invalid_if_none (literal "null" PNone (c :: s))
       else if Ascii.eqb c "t" then
         invalid_if_none (literal "true" (PBool true) (c :: s))
       else if Ascii.eqb c "f" then
         invalid_if_none (literal "false" (PBool false) (c :: s))
       else
         match match_number (c :: s) with
         | Some (integer, frac, exp, rest) =>
             match number max_digits integer frac exp with
             | inl e => inl e
             | inr v => inr (v, rest)
             end
         | None =>
             if Ascii.eqb c "N" then
               invalid_if_none (literal "NaN" (PFloat (txt "NaN")) (c :: s))
             else if Ascii.eqb c "I" then
               invalid_if_none
                 (literal "Infinity" (PFloat (txt "Infinity")) (c :: s))
             else if Ascii.eqb c "-" then
               invalid_if_none
                 (literal "-Infinity" (PFloat (txt "-Infinity")) (c :: s))
             else inl Invalid
         end).
Proof.
  intros Hw. pose proof (all_space_blank_head w Hw) as Hb.
  assert (L : forall p v,
             forallb (fun c => negb (Str.isspace c)) (txt p) = true ->
             invalid_if_none (literal p v ((c :: s) ++ w))
             = scanned_with_rest w (invalid_if_none (literal p v (c :: s)))).
  { intros p v Hp. rewrite (literal_app p v w (c :: s) Hb Hp).
    apply invalid_if_none_app. }
  destruct (Ascii.eqb c "n"). { now apply L. }
  destruct (Ascii.eqb c "t"). { now apply L. }
  destruct (Ascii.eqb c "f"). { now apply L. }
  rewrite (match_number_app w (c :: s) Hb).
  destruct (match_number (c :: s)) as [[[[integer frac] exp] rest]|].
  { now destruct (number max_digits integer frac exp). }
  destruct (Ascii.eqb c "N"). { now apply L. }
  destruct (Ascii.eqb c "I"). { now apply L. }
  destruct (Ascii.eqb c "-"). { now apply L. }
  reflexivity.
Qed.

(** White space after the text does not change what a scan reads of it. *)
Lemma scan_once_app (w : text) (max_digits : nat) :
  all_space w = true ->
  forall (depth : nat) (s : text),
    scan_once max_digits depth (s ++ w)
    = scanned_with_rest w (scan_once max_digits depth s).
Proof.
  intros Hw.
  pose proof (all_space_blank_head w Hw) as Hb.
  induction depth as [|depth IH]; intros s.
  - destruct s as [|c s].
    + cbn [app]. now rewrite scan_once_blank.
    + change ((c :: s) ++ w) with (c :: s ++ w). cbn [scan_once].
      destruct (Ascii.eqb c dquote).
      { rewrite (scanstring_app w s Hw).
        now destruct (scanstring s) as [[k r]|]. }
      destruct (Ascii.eqb c "{"); [reflexivity|].
      destruct (Ascii.eqb c "["); [reflexivity|].
      change (c :: s ++ w) with ((c :: s) ++ w).
      now apply scan_flat_app.
  - destruct s as [|c s].
    + cbn [app]. now rewrite scan_once_blank.
    + change ((c :: s) ++ w) with (c :: s ++ w). cbn [scan_once].
      destruct (Ascii.eqb c dquote).
      { rewrite (scanstring_app w s Hw).
        now destruct (scanstring s) as [[k r]|]. }
      destruct (Ascii.eqb c "{").
      { apply JSONObject_app;
          [exact Hw | exact IH | intros x; apply scan_once_blank]. }
      destruct (Ascii.eqb c "[").
      { apply JSONArray_app;
          [exact Hw | exact IH | intros x; apply scan_once_blank]. }
      change (c :: s ++ w) with ((c :: s) ++ w).
      now apply scan_flat_app.
Qed.

(** *** [decode] and [strip] *)

(** A text that decodes still decodes, to the same value, without the
    white space after it. *)
Lemma decode_drop_trailing (max_digits depth : nat) (s w : text)
      (v : pyval) :
  all_space w = true ->
  decode max_digits depth (s ++ w) = inr v ->
  decode max_digits depth s = inr v.
Proof.
  intros Hw. unfold decode.
  destruct (skip_ws_app s w Hw) as [(c & r & E1 & E2) | [E1 E2]].
  - rewrite E1, E2.
    change (c :: r ++ w) with ((c :: r) ++ w).
    rewrite (scan_once_app w max_digits Hw).
    destruct (scan_once max_digits depth (c :: r)) as [e|[v' rest]];
      [discriminate|].
    cbn [scanned_with_rest].
    destruct (skip_ws (rest ++ w)) eqn:E; [|discriminate].
    now rewrite (skip_ws_app_nil _ _ E).
  - now rewrite (scan_once_blank _ _ _ E2).
Qed.

(** ... and without the white space before it. *)
Lemma decode_drop_leading (max_digits depth : nat) (w s : text)
      (v : pyval) :
  all_space w = true ->
  decode max_digits depth (w ++ s) = inr v ->
  decode max_digits depth s = inr v.
Proof.
  intros Hw. unfold decode.
  induction w as [|c w IH]; [trivial|].
  apply all_space_cons in Hw as [Hc Hw].
  cbn [app skip_ws]. destruct (is_ws c); [now apply IH|].
  now rewrite (scan_once_blank _ _ (c :: w ++ s) Hc).
Qed.

Lemma lstrip_split (s : text) :
  exists lead, s = lead ++ Str.lstrip s /\ all_space lead = true.
Proof.
  induction s as [|c s (lead & E & Hl)].
  - now exists [].
  - simpl. destruct (Str.isspace c) eqn:Hc.
    + exists (c :: lead). split; [cbn [app]; now f_equal|].
      unfold all_space in *. simpl. now rewrite Hc.
    + now exists [].
Qed.

Lemma all_space_rev (w : text) : all_space (rev w) = all_space w.
Proof.
  unfold all_space. induction w as [|c w IH]; [reflexivity|].
  simpl. rewrite forallb_app, IH. simpl.
  rewrite andb_true_r. apply andb_comm.
Qed.

(** What [strip] removes is white space on both sides. *)
Lemma strip_split (s : text) :
  exists lead trail,
    s = lead ++ Str.strip s ++ trail
    /\ all_space lead = true /\ all_space trail = true.
Proof.
  destruct (lstrip_split s) as (lead & E & Hl).
  destruct (lstrip_split (rev (Str.lstrip s))) as (tail & F & Ht).
  exists lead, (rev tail). unfold Str.strip, Str.rstrip. repeat split.
  - rewrite <- rev_app_distr, <- F, rev_involutive. exact E.
  - exact Hl.
  - now rewrite all_space_rev.
Qed.

(** [json.loads] of a text that parses gives the same value on the
    stripped text, under the same limits. *)
Lemma json_loads_strip (W : World) (s : text) (v : pyval) :
  json_loads W s = Some v -> json_loads W (Str.strip s) = Some v.
Proof.
  unfold json_loads, json_loads_result.
  destruct (strip_split s) as (lead & trail & E & Hl & Ht).
  remember (Str.strip s) as core.
  destruct (decode (int_max_str_digits W) (recursion_depth W) s)
    as [e|v'] eqn:H; [discriminate|].
  intros Hv. injection Hv as ->.
  rewrite E in H.
  apply decode_drop_leading in H; [|exact Hl].
  apply decode_drop_trailing in H; [|exact Ht].
  now rewrite H.
Qed.

(** *** The bound of the loops is never reached

    A value that is read has a character that is not white space, so a
    loop that starts with more rounds than its text has such characters
    gives the same result with any larger number of rounds. *)

Lemma weight_cons (c : ascii) (s : text) :
  weight (c :: s) = (if Str.isspace c then 0 else 1) + weight s.
Proof. unfold weight. simpl. now destruct (Str.isspace c). Qed.

Lemma weight_skip_ws (s : text) : weight (skip_ws s) = weight s.
Proof.
  induction s as [|c s IH]; [reflexivity|].
  simpl. destruct (is_ws c) eqn:E; [|reflexivity].
  now rewrite weight_cons, (ws_is_space c E).
Qed.

Lemma weight_cons_eqb (c x : ascii) (s : text) :
  Ascii.eqb c x = true -> Str.isspace x = false ->
  weight (c :: s) = S (weight s).
Proof.
  intros E Hx. apply Ascii.eqb_eq in E. subst c.
  now rewrite weight_cons, Hx.
Qed.

Lemma weight_cons_le (c : ascii) (s : text) : weight s <= weight (c :: s).
Proof. rewrite weight_cons. lia. Qed.

Lemma scanstring_from_weight (s : text) :
  forall st acc k r,
    scanstring_from st s acc = Some (k, r) -> weight r < weight s.
Proof.
  induction s as [|c s IH]; intros st acc k r H; [discriminate|].
  pose proof (weight_cons_le c s) as Hle.
  destruct st; cbn [scanstring_from] in H.
  - destruct (Ascii.eqb c dquote) eqn:E.
    + injection H as _ <-. rewrite (weight_cons_eqb c dquote s E eq_refl). lia.
    + destruct (Ascii.eqb c backslash); [apply IH in H; lia|].
      destruct (N_of_ascii c <? 32)%N; [discriminate | apply IH in H; lia].
  - destruct (Ascii.eqb c "u"); [apply IH in H; lia|].
    destruct (BACKSLASH c); [apply IH in H; lia | discriminate].
  - destruct (hexval c); [|discriminate].
    destruct remaining as [|[|j]];
      [discriminate | apply IH in H; lia | apply IH in H; lia].
Qed.

Lemma span_digits_weight (s : text) : weight (snd (span_digits s)) <= weight s.
Proof.
  induction s as [|c s IH]; [reflexivity|].
  cbn [span_digits]. pose proof (weight_cons_le c s).
  destruct (is_digit c); [|reflexivity].
  destruct (span_digits s). cbn [snd] in *. lia.
Qed.

Lemma match_frac_weight (s : text) : weight (snd (match_frac s)) <= weight s.
Proof.
  destruct s as [|c s]; [reflexivity|].
  cbn [match_frac]. destruct (Ascii.eqb c "."); [|reflexivity].
  pose proof (span_digits_weight s). pose proof (weight_cons_le c s).
  destruct (span_digits s) as [[|d ds] rest]; cbn [snd] in *; lia.
Qed.

Lemma match_exp_weight (s : text) : weight (snd (match_exp s)) <= weight s.
Proof.
  destruct s as [|c s]; [reflexivity|].
  cbn [match_exp].
  destruct (Ascii.eqb c "e" || Ascii.eqb c "E"); [|reflexivity].
  pose proof (weight_cons_le c s).
  destruct s as [|c1 s]; [reflexivity|].
  pose proof (weight_cons_le c1 s).
  destruct (Ascii.eqb c1 "-" || Ascii.eqb c1 "+").
  - pose proof (span_digits_weight s).
    destruct (span_digits s) as [[|d ds] rest]; cbn [snd] in *; lia.
  - pose proof (span_digits_weight (c1 :: s)).
    destruct (span_digits (c1 :: s)) as [[|d ds] rest]; cbn [snd] in *; lia.
Qed.

Lemma digit_not_space (c : ascii) : is_digit c = true -> Str.isspace c = false.
Proof. by_char c. Qed.

Lemma match_integer_weight (s i r : text) :
  match_integer s = Some (i, r) -> weight r < weight s.
Proof.
  assert (G : forall sign t,
             match t with
             | [] => None
             | c :: r0 =>
                 if Ascii.eqb c "0" then Some (sign ++ [c], r0)
                 else if is_digit c then
                        let (d, rest) := span_digits r0 in
                        Some (sign ++ c :: d, rest)
                      else None
             end = Some (i, r) -> weight r < weight t).
  { intros sign [|c r0] H; [discriminate|].
    destruct (Ascii.eqb c "0") eqn:E0.
    - injection H as _ <-. rewrite (weight_cons_eqb c "0" r0 E0 eq_refl). lia.
    - destruct (is_digit c) eqn:Ed; [|discriminate].
      pose proof (span_digits_weight r0).
      destruct (span_digits r0) as [d rest]. injection H as _ <-.
      rewrite weight_cons, (digit_not_space c Ed). cbn [snd] in *. lia. }
  unfold match_integer. destruct s as [|c s]; [discriminate|].
  destruct (Ascii.eqb c "-") eqn:E.
  - intros H. apply G in H.
    rewrite (weight_cons_eqb c "-" s E eq_refl). lia.
  - apply (G [] (c :: s)).
Qed.

Lemma match_number_weight (s i f e r : text) :
  match_number s = Some (i, f, e, r) -> weight r < weight s.
Proof.
  unfold match_number.
  destruct (match_integer s) as [[i0 r0]|] eqn:Hi; [|discriminate].
  apply match_integer_weight in Hi.
  pose proof (match_frac_weight r0).
  destruct (match_frac r0) as [f0 r1].
  pose proof (match_exp_weight r1).
  destruct (match_exp r1) as [e0 r2].
  intros H1. injection H1 as _ _ _ <-. cbn [snd] in *. lia.
Qed.

Lemma after_prefix_weight (p s r : text) :
  after_prefix p s = Some r -> weight r + weight p = weight s.
Proof.
  revert s. induction p as [|a p IH]; intros s H.
  - injection H as <-. cbn. lia.
  - destruct s as [|b s]; [discriminate|].
    cbn [after_prefix] in H.
    destruct (Ascii.eqb a b) eqn:E; [|discriminate].
    apply Ascii.eqb_eq in E. subst b.
    apply IH in H. rewrite !weight_cons. lia.
Qed.

Lemma literal_weight (p : string) (v0 v : pyval) (s r : text) :
  invalid_if_none (literal p v0 s) = inr (v, r) ->
  0 < weight (txt p) -> weight r < weight s.
Proof.
  unfold literal.
  destruct (after_prefix (txt p) s) as [r0|] eqn:E; [|discriminate].
  intros H Hp. injection H as _ <-.
  apply after_prefix_weight in E. lia.
Qed.

Section LoopBound.

Variable scan : text -> scanned.
Hypothesis scan_weight :
  forall s v r, scan s = inr (v, r) -> weight r < weight s.

Lemma array_loop_weight (k : nat) :
  forall s acc v r,
    array_loop scan k s acc = inr (v, r) -> weight r < weight s.
Proof.
  induction k as [|k IH]; intros s acc v r H; [discriminate|].
  cbn [array_loop] in H.
  destruct (scan s) as [e|[v1 r1]] eqn:Hs; [discriminate|].
  apply scan_weight in Hs.
  pose proof (weight_skip_ws r1) as Hw1.
  destruct (skip_ws r1) as [|c r'] eqn:E1; [discriminate|].
  pose proof (weight_cons_le c r').
  destruct (Ascii.eqb c "]").
  - injection H as _ <-. lia.
  - destruct (Ascii.eqb c ","); [|discriminate].
    apply IH in H. rewrite weight_skip_ws in H. lia.
Qed.

(** More rounds than the text has characters: any such number of rounds
    gives the same. *)
Lemma array_loop_bound (k : nat) :
  forall k' s acc,
    weight s < k -> weight s < k' ->
    array_loop scan k s acc = array_loop scan k' s acc.
Proof.
  induction k as [|k IH]; intros k' s acc Hk Hk'; [lia|].
  destruct k' as [|k']; [lia|].
  cbn [array_loop].
  destruct (scan s) as [e|[v1 r1]] eqn:Hs; [reflexivity|].
  apply scan_weight in Hs.
  pose proof (weight_skip_ws r1) as Hw1.
  destruct (skip_ws r1) as [|c r'] eqn:E1; [reflexivity|].
  pose proof (weight_cons_le c r').
  destruct (Ascii.eqb c "]"); [reflexivity|].
  destruct (Ascii.eqb c ","); [|reflexivity].
  apply IH; rewrite weight_skip_ws; lia.
Qed.

Lemma JSONArray_weight (s : text) (v : pyval) (r : text) :
  JSONArray scan s = inr (v, r) -> weight r < S (weight s).
Proof.
  unfold JSONArray. pose proof (weight_skip_ws s) as Hw.
  destruct (skip_ws s) as [|c s'] eqn:E.
  - intros H. apply array_loop_weight in H. cbn in H. lia.
  - pose proof (weight_cons_le c s') as Hle.
    destruct (Ascii.eqb c "]").
    + intros H. injection H as _ <-. lia.
    + intros H. apply array_loop_weight in H. lia.
Qed.

Lemma object_loop_weight (k : nat) :
  forall s acc v r,
    object_loop scan k s acc = inr (v, r) -> weight r < weight s.
Proof.
  induction k as [|k IH]; intros s acc v r H; [discriminate|].
  cbn [object_loop] in H.
  destruct (scanstring s) as [[key r0]|] eqn:Hkey; [|discriminate].
  pose proof (scanstring_from_weight _ _ _ _ _ Hkey) as Hk.
  pose proof (weight_skip_ws r0) as Hw0.
  destruct (skip_ws r0) as [|c r1] eqn:E0; [discriminate|].
  pose proof (weight_cons_le c r1).
  destruct (Ascii.eqb c ":"); [|discriminate].
  destruct (scan (skip_ws r1)) as [e|[v1 r2]] eqn:Hs; [discriminate|].
  apply scan_weight in Hs. rewrite weight_skip_ws in Hs.
  pose proof (weight_skip_ws r2) as Hw2.
  destruct (skip_ws r2) as [|c2 r3] eqn:E2; [discriminate|].
  pose proof (weight_cons_le c2 r3).
  destruct (Ascii.eqb c2 "}").
  - injection H as _ <-. lia.
  - destruct (Ascii.eqb c2 ","); [|discriminate].
    pose proof (weight_skip_ws r3) as Hw3.
    destruct (skip_ws r3) as [|c3 r4] eqn:E3; [discriminate|].
    pose proof (weight_cons_le c3 r4).
    destruct (Ascii.eqb c3 dquote); [|discriminate].
    apply IH in H. lia.
Qed.

Lemma object_loop_bound (k : nat) :
  forall k' s acc,
    weight s < k -> weight s < k' ->
    object_loop scan k s acc = object_loop scan k' s acc.
Proof.
  induction k as [|k IH]; intros k' s acc Hk Hk'; [lia|].
  destruct k' as [|k']; [lia|].
  cbn [object_loop].
  destruct (scanstring s) as [[key r0]|] eqn:Hkey; [|reflexivity].
  pose proof (scanstring_from_weight _ _ _ _ _ Hkey) as Hlt.
  pose proof (weight_skip_ws r0) as Hw0.
  destruct (skip_ws r0) as [|c r1] eqn:E0; [reflexivity|].
  pose proof (weight_cons_le c r1).
  destruct (Ascii.eqb c ":"); [|reflexivity].
  destruct (scan (skip_ws r1)) as [e|[v1 r2]] eqn:Hs; [reflexivity|].
  apply scan_weight in Hs. rewrite weight_skip_ws in Hs.
  pose proof (weight_skip_ws r2) as Hw2.
  destruct (skip_ws r2) as [|c2 r3] eqn:E2; [reflexivity|].
  pose proof (weight_cons_le c2 r3).
  destruct (Ascii.eqb c2 "}"); [reflexivity|].
  destruct (Ascii.eqb c2 ","); [|reflexivity].
  pose proof (weight_skip_ws r3) as Hw3.
  destruct (skip_ws r3) as [|c3 r4] eqn:E3; [reflexivity|].
  pose proof (weight_cons_le c3 r4).
  destruct (Ascii.eqb c3 dquote); [|reflexivity].
  apply IH; lia.
Qed.

Lemma JSONObject_weight (s : text) (v : pyval) (r : text) :
  JSONObject scan s = inr (v, r) -> weight r < S (weight s).
Proof.
  unfold JSONObject. pose proof (weight_skip_ws s) as Hw.
  destruct (skip_ws s) as [|c s'] eqn:E; [discriminate|].
  pose proof (weight_cons_le c s') as Hle.
  destruct (Ascii.eqb c "}").
  - intros H. injection H as _ <-. lia.
  - destruct (Ascii.eqb c dquote); [|discriminate].
    intros H. apply object_loop_weight in H. lia.
Qed.

(** The loops of [JSONArray] and [JSONObject] start with more rounds
    than they can use: more rounds change nothing. *)
Lemma JSONArray_bound (s : text) (k : nat) :
  fuel s <= k ->
  JSONArray scan s
  = match skip_ws s with
    | c :: r =>
        if Ascii.eqb c "]" then inr (PList [], r)
        else array_loop scan k (c :: r) []
    | [] => array_loop scan k [] []
    end.
Proof.
  intros Hk. unfold JSONArray. pose proof (weight_skip_ws s) as Hw.
  unfold fuel in *. fold (weight s) in *.
  destruct (skip_ws s) as [|c r].
  - apply array_loop_bound; cbn in *; lia.
  - destruct (Ascii.eqb c "]"); [reflexivity|].
    apply array_loop_bound; lia.
Qed.

Lemma JSONObject_bound (s : text) (k : nat) :
  fuel s <= k ->
  JSONObject scan s
  = match skip_ws s with
    | c :: r =>
        if Ascii.eqb c "}" then inr (PDict [], r)
        else if Ascii.eqb c dquote then object_loop scan k r []
        else inl Invalid
    | [] => inl Invalid
    end.
Proof.
  intros Hk. unfold JSONObject. pose proof (weight_skip_ws s) as Hw.
  unfold fuel in *. fold (weight s) in *.
  destruct (skip_ws s) as [|c r]; [reflexivity|].
  pose proof (weight_cons_le c r).
  destruct (Ascii.eqb c "}"); [reflexivity|].
  destruct (Ascii.eqb c dquote); [|reflexivity].
  apply object_loop_bound; lia.
Qed.

End LoopBound.

(** A value that is read has a character that is not white space. *)
Lemma scan_once_weight (max_digits depth : nat) :
  forall s v r,
    scan_once max_digits depth s = inr (v, r) -> weight r < weight s.
Proof.
  assert (Flat : forall c s v r,
             (if Ascii.eqb c "n" then
                invalid_if_none (literal "null" PNone (c :: s))
              else if Ascii.eqb c "t" then
                invalid_if_none (literal "true" (PBool true) (c :: s))
              else if Ascii.eqb c "f" then
                invalid_if_none (literal "false" (PBool false) (c :: s))
              else
                match match_number (c :: s) with
                | Some (integer, frac, exp, rest) =>
                    match number max_digits integer frac exp with
                    | inl e => inl e
                    | inr v => inr (v, rest)
                    end
                | None =>
                    if Ascii.eqb c "N" then
                      invalid_if_none
                        (literal "NaN" (PFloat (txt "NaN")) (c :: s))
                    else if Ascii.eqb c "I" then
                      invalid_if_none
                        (literal "Infinity" (PFloat (txt "Infinity")) (c :: s))
                    else if Ascii.eqb c "-" then
                      invalid_if_none
                        (literal "-Infinity" (PFloat (txt "-Infinity"))
                                 (c :: s))
                    else inl Invalid
                end) = inr (v, r) ->
             weight r < weight (c :: s)).
  { intros c s v r H.
    destruct (Ascii.eqb c "n");
      [now apply literal_weight in H; [|cbn; lia]|].
    destruct (Ascii.eqb c "t");
      [now apply literal_weight in H; [|cbn; lia]|].
    destruct (Ascii.eqb c "f");
      [now apply literal_weight in H; [|cbn; lia]|].
    destruct (match_number (c :: s)) as [[[[i f] e] r0]|] eqn:Hn.
    { apply match_number_weight in Hn.
      destruct (number max_digits i f e); [discriminate|].
      now injection H as _ <-. }
    destruct (Ascii.eqb c "N");
      [now apply literal_weight in H; [|cbn; lia]|].
    destruct (Ascii.eqb c "I");
      [now apply literal_weight in H; [|cbn; lia]|].
    destruct (Ascii.eqb c "-");
      [now apply literal_weight in H; [|cbn; lia]|].
    discriminate. }
  assert (Str : forall c s v r,
             Ascii.eqb c dquote = true ->
             invalid_if_none
               (option_map (fun '(k, r') => (PStr k, r')) (scanstring s))
             = inr (v, r) ->
             weight r < weight (c :: s)).
  { intros c s v r Eq H.
    destruct (scanstring s) as [[k r0]|] eqn:Hk; [|discriminate].
    injection H as _ <-. apply scanstring_from_weight in Hk.
    pose proof (weight_cons_le c s). lia. }
  induction depth as [|depth IH]; intros s v r H;
    (destruct s as [|c s]; [discriminate|]); cbn [scan_once] in H.
  - destruct (Ascii.eqb c dquote) eqn:Eq; [exact (Str c s v r Eq H)|].
    destruct (Ascii.eqb c "{"); [discriminate|].
    destruct (Ascii.eqb c "["); [discriminate|].
    exact (Flat c s v r H).
  - destruct (Ascii.eqb c dquote) eqn:Eq; [exact (Str c s v r Eq H)|].
    destruct (Ascii.eqb c "{") eqn:Eo.
    { apply (JSONObject_weight _ IH) in H.
      rewrite (weight_cons_eqb c "{" s Eo eq_refl). lia. }
    destruct (Ascii.eqb c "[") eqn:Ea.
    { apply (JSONArray_weight _ IH) in H.
      rewrite (weight_cons_eqb c "[" s Ea eq_refl). lia. }
    exact (Flat c s v r H).
Qed.

(** The loops of the scanner never run out of rounds: more rounds than
    [fuel] gives change nothing. *)
Lemma loops_never_run_out (max_digits depth : nat) (s : text) (k : nat) :
  fuel s <= k ->
  JSONArray (scan_once max_digits depth) s
  = match skip_ws s with
    | c :: r =>
        if Ascii.eqb c "]" then inr (PList [], r)
        else array_loop (scan_once max_digits depth) k (c :: r) []
    | [] => array_loop (scan_once max_digits depth) k [] []
    end
  /\ JSONObject (scan_once max_digits depth) s
     = match skip_ws s with
       | c :: r =>
           if Ascii.eqb c "}" then inr (PDict [], r)
           else if Ascii.eqb c dquote
                then object_loop (scan_once max_digits depth) k r []
                else inl Invalid
       | [] => inl Invalid
       end.
Proof.
  intros Hk. split.
  - apply JSONArray_bound; [apply scan_once_weight | exact Hk].
  - apply JSONObject_bound; [apply scan_once_weight | exact Hk].
Qed.

(** *** The decoder at work *)

Example decode_numbers :
  json_loads default_world (txt " -0 ") = Some (PInt 0)
  /\ json_loads default_world (txt "1.5e+3") = Some (PFloat (txt "1.5e+3"))
  /\ json_loads default_world (txt "01") = None
  /\ json_loads default_world (txt "1.") = None
  /\ json_loads default_world (txt "-Infinity")
     = Some (PFloat (txt "-Infinity")).
Proof. repeat split. Qed.

Example decode_containers :
  json_loads default_world
             (quoted "{'a': 1, 'b': [true, false, null], 'a': 2}")
  = Some (PDict [(lit "a", PInt 2);
                 (lit "b", PList [PBool true; PBool false; PNone])])
  /\ json_loads default_world (txt "[[[[[[[[1]]]]]]]]")
     = Some (PList [PList [PList [PList [PList [PList [PList [PList
                      [PInt 1]]]]]]]])
  /\ json_loads default_world (txt "[1,]") = None
  /\ json_loads default_world (quoted "{'a':1,}") = None
  /\ json_loads default_world (txt "[1] 2") = None.
Proof. repeat split. Qed.

Example decode_strings :
  json_loads default_world (quoted "'aA\n\ud83d\ude00\u00e9'")
  = Some (PStr [97; 65; 10; 128512; 233]%N)
  /\ json_loads default_world (quoted "'open") = None
  /\ json_loads default_world (quoted "'\x'") = None
  /\ json_loads default_world (txt "hello") = None
  /\ json_loads default_world [] = None.
Proof. repeat split. Qed.

(** The two limits: a number of one digit too many and one bracket too
    deep are refused, with the error that is not [JSONDecodeError]. *)
Example decode_limits :
  json_loads_result default_world (repeat "1"%char 4301) = inl TooLong
  /\ json_loads default_world (repeat "1"%char 4300) <> None
  /\ json_loads_result default_world
       (repeat "["%char 901 ++ repeat "]"%char 901) = inl TooDeep
  /\ json_loads default_world (repeat "["%char 900 ++ repeat "]"%char 900)
     <> None
  /\ json_loads_result default_world (repeat "["%char 901) = inl TooDeep
  /\ json_loads_result default_world (repeat "["%char 900) = inl Invalid.
Proof. repeat split; vm_compute; discriminate. Qed.

End JsonFacts.

(* ================================================================= *)
(** ** The heuristic fallback *)

Section Heuristic.

Import Str.

Local Notation "'student_name' t" :=
  (_extract_field t [txt "student"; txt "name"]) (at level 10, t at level 9).

(** C5 as the specification words it fails: with the keyword "student"
    present on a later line, an earlier line that only holds "name" is
    passed over; and a line "Student Name: Jane Doe" is not the answer
    when an earlier line holds "student". *)
Lemma C5_counterexample :
  (let t := lines2 "Name: Ann" "Student id: 7" in
   student_name t <> Spec.scan_field t [txt "student"; txt "name"])
  /\ (let t := lines2 "Student id: 7" "Student Name: Jane Doe" in
      In (txt "Student Name: Jane Doe") (split_lines t)
      /\ student_name t <> txt "Student Name: Jane Doe").
Proof.
  split; [|split].
  - vm_compute. discriminate.
  - vm_compute. right. left. reflexivity.
  - vm_compute. discriminate.
Qed.

Lemma student_name_scan (t : text) :
  student_name t
  = if existsb (Spec.line_matches [txt "student"]) (split_lines t)
    then Spec.scan_field t [txt "student"]
    else Spec.scan_field t [txt "name"].
Proof.
  rewrite !scan_field_one by reflexivity.
  assert (E : existsb (Spec.line_matches [txt "student"]) (split_lines t)
              = contains (txt "student") (lower t)).
  { rewrite contains_lower_lines by reflexivity.
    induction (split_lines t) as [|l ls IH]; [reflexivity|].
    cbn [existsb]. rewrite IH. f_equal.
    unfold Spec.line_matches. cbn [existsb]. apply orb_false_r. }
  rewrite E. destruct (contains (txt "student") (lower t)) eqn:H.
  - now apply extract_field_commit.
  - rewrite extract_field_skip by exact H.
    now apply extract_field_single.
Qed.

(** C5, amended.  In the fallback dict, [grade_level], [report_year] and
    [general_comments] are the trimmed first line that contains "grade",
    "year", "comments" (case set aside), or the empty string when no line
    does.  For [student_name] the keyword "student" comes first: the
    trimmed first line that contains "student" when some line does,
    otherwise the trimmed first line that contains "name", otherwise the
    empty string.  So a line that contains "student", such as
    "Student Name: Jane Doe", is the value of [student_name] when no
    earlier line contains "student". *)
Theorem C5_heuristic_fields (t : text) :
  item (Extractor.fallback_data t) (lit "grade_level")
    = Some (PStr (u (Spec.scan_field t [txt "grade"])))
  /\ item (Extractor.fallback_data t) (lit "report_year")
       = Some (PStr (u (Spec.scan_field t [txt "year"])))
  /\ item (Extractor.fallback_data t) (lit "general_comments")
       = Some (PStr (u (Spec.scan_field t [txt "comments"])))
  /\ item (Extractor.fallback_data t) (lit "student_name")
       = Some (PStr (u
           (if existsb (Spec.line_matches [txt "student"]) (split_lines t)
            then Spec.scan_field t [txt "student"]
            else Spec.scan_field t [txt "name"])))
  /\ (forall before line after,
        split_lines t = before ++ line :: after ->
        forallb (fun l => negb (Spec.line_matches [txt "student"] l)) before
          = true ->
        Spec.line_matches [txt "student"] line = true ->
        item (Extractor.fallback_data t) (lit "student_name")
          = Some (PStr (u (strip line)))).
Proof.
  assert (G : forall k, lower k = k -> single_line k = true ->
                      _extract_field t [k] = Spec.scan_field t [k]).
{ intros k Hl Hs. rewrite scan_field_one by exact Hl.
  now apply extract_field_single. }
rewrite <- (G (txt "grade")), <- (G (txt "year")), <- (G (txt "comments"))
  by reflexivity.
rewrite <- student_name_scan.
repeat split.
intros before line after Hsplit Hbefore Hline.
change (item (Extractor.fallback_data t) (lit "student_name"))
  with (Some (PStr (u (student_name t)))).
do 3 f_equal. rewrite student_name_scan.
assert (F : find (Spec.line_matches [txt "student"]) (split_lines t)
            = Some line).
{ rewrite Hsplit. now apply find_app_skip. }
assert (X : existsb (Spec.line_matches [txt "student"]) (split_lines t)
            = true).
{ apply existsb_exists. exists line. split; [|exact Hline].
  rewrite Hsplit. apply in_or_app. right. now left. }
rewrite X. unfold Spec.scan_field. now rewrite F.
Qed.

Lemma C5_heuristic_fields_witness :
  item (Extractor.fallback_data
          (lines2 "Report card" "  Student Name: Jane Doe  "))
       (lit "student_name")
  = Some (PStr (lit "Student Name: Jane Doe")).
Proof.
  exact (proj2 (proj2 (proj2 (proj2
           (C5_heuristic_fields
              (lines2 "Report card" "  Student Name: Jane Doe  ")))))
           [txt "Report card"] (txt "  Student Name: Jane Doe  ") []
           eq_refl eq_refl eq_refl).
Defined.

(** C10.  [_extract_field] takes its keywords in argument order and
    settles on the first one that occurs in the lowered text: the answer
    is the (trimmed) first line that contains that keyword.  For
    [student_name], once "student" occurs in the text the first line
    with "student" is the answer, also when an earlier line holds "name"
    only: the answer is not the first line that matches any keyword. *)
Theorem C10_keyword_order :
  (forall (t : text) (tried : list text) (k : text) (later : list text),
      forallb (fun k' => negb (contains k' (lower t))) tried = true ->
      contains k (lower t) = true ->
      single_line k = true ->
      exists line,
        find (fun l => contains k (lower l)) (split_lines t) = Some line
        /\ _extract_field t (tried ++ k :: later) = strip line)
  /\ (forall t : text,
        contains (txt "student") (lower t) = true ->
        exists line,
          find (fun l => contains (txt "student") (lower l)) (split_lines t)
            = Some line
          /\ student_name t = strip line)
  /\ (let t := lines2 "Name: Ann" "Student id: 7" in
      student_name t = txt "Student id: 7"
      /\ find (Spec.line_matches [txt "student"; txt "name"]) (split_lines t)
         = Some (txt "Name: Ann")).
Proof.
  assert (G : forall t tried k later,
             forallb (fun k' => negb (contains k' (lower t))) tried = true ->
             contains k (lower t) = true ->
             single_line k = true ->
             exists line,
               find (fun l => contains k (lower l)) (split_lines t)
                 = Some line
               /\ _extract_field t (tried ++ k :: later) = strip line).
  { intros t tried k later Htried Hk Hs.
    induction tried as [|k0 tried IH].
    - cbn [app]. rewrite extract_field_commit by assumption.
      unfold scan_one.
      rewrite contains_lower_lines in Hk by exact Hs.
      apply existsb_find in Hk as [line Hline].
      exists line. now rewrite Hline.
    - cbn [forallb] in Htried. apply andb_true_iff in Htried as [H0 Ht].
      apply negb_true_iff in H0.
      cbn [app]. rewrite extract_field_skip by exact H0. now apply IH. }
  split; [exact G | split].
  - intros t Ht. exact (G t [] (txt "student") [txt "name"] eq_refl Ht eq_refl).
  - split; reflexivity.
Qed.

Lemma C10_keyword_order_witness :
  exists line,
    find (fun l => contains (txt "name") (lower l))
         (split_lines (lines2 "Report" "Pupil NAME: Ann")) = Some line
    /\ _extract_field (lines2 "Report" "Pupil NAME: Ann")
                      ([txt "student"] ++ txt "name" :: [])
       = strip line.
Proof.
  exact (proj1 C10_keyword_order (lines2 "Report" "Pupil NAME: Ann")
               [txt "student"] (txt "name") [] eq_refl eq_refl eq_refl).
Defined.

End Heuristic.

(* ================================================================= *)
(** ** The gateway: [extract_bytes] *)

Section Gateway.

Import Extractor.

(** The run of [extract_bytes] once the image is decoded and the model has
    answered [output]: the answer is stripped, parsed, and on a failed
    parse scanned by the fallback; both calls are in the log. *)
Lemma extract_bytes_answered (W : World) (self : GeminiExtractor)
      (image_bytes : bytes) (image : Image) (m : Model) (output : text)
      (log : list call) :
  _available self = true ->
  model self = Some m ->
  Image_open W image_bytes = inr image ->
  generate_content W m prompt image = inr output ->
  extract_bytes W self image_bytes log
  = (inr (success_result
            match json_loads W (Str.strip output) with
            | Some v => v
            | None => fallback_data (Str.strip output)
            end),
     log ++ [CallImageOpen image_bytes] ++ [CallGenerateContent m prompt image]).
Proof.
  intros Ha Hm Hi Hg.
  unfold extract_bytes, model_text, loads, json_loads, try_except, bind,
    ask, ret, raise.
  rewrite Ha, Hm, Hi, Hg. cbn [negb].
  rewrite <- app_assoc.
  now destruct (json_loads_result W (Str.strip output)).
Qed.

(** The run when the image does not decode. *)
Lemma extract_bytes_undecodable (W : World) (self : GeminiExtractor)
      (image_bytes : bytes) (e : exn) (log : list call) :
  _available self = true ->
  Image_open W image_bytes = inl e ->
  extract_bytes W self image_bytes log
  = (inr (error_result (txt "Extraction failed: " ++ str_exn W e)),
     log ++ [CallImageOpen image_bytes]).
Proof.
  intros Ha Hi.
  unfold extract_bytes, try_except, bind, ask, ret.
  now rewrite Ha, Hi.
Qed.

(** The run when the model call raises. *)
Lemma extract_bytes_model_error (W : World) (self : GeminiExtractor)
      (image_bytes : bytes) (image : Image) (m : Model) (e : exn)
      (log : list call) :
  _available self = true ->
  model self = Some m ->
  Image_open W image_bytes = inr image ->
  generate_content W m prompt image = inl e ->
  extract_bytes W self image_bytes log
  = (inr (error_result (str_exn W e)),
     log ++ [CallImageOpen image_bytes] ++ [CallGenerateContent m prompt image]).
Proof.
  intros Ha Hm Hi Hg.
  unfold extract_bytes, model_text, try_except, bind, ask, ret.
  rewrite Ha, Hm, Hi, Hg. cbn [negb].
  now rewrite <- app_assoc.
Qed.

Lemma init_without_key (W : World) (GEMINI_MODEL : text) :
  is_available (__init__ W [] GEMINI_MODEL) = false.
Proof. reflexivity. Qed.

Lemma init_configure_raises (W : World) (key GEMINI_MODEL : text) (e : exn) :
  genai_configure W key = inl e ->
  is_available (__init__ W key GEMINI_MODEL) = false.
Proof.
  intros H. unfold __init__. destruct key as [|c key]; [reflexivity|].
  now rewrite H.
Qed.

Lemma init_model_raises (W : World) (key GEMINI_MODEL : text) :
  (forall name, exists e, GenerativeModel W name = inl e) ->
  is_available (__init__ W key GEMINI_MODEL) = false.
Proof.
  intros H. unfold __init__. destruct key as [|c key]; [reflexivity|].
  destruct (genai_configure W (c :: key)); [reflexivity|].
  match goal with |- context [GenerativeModel W ?n] =>
    destruct (H n) as [e He]; now rewrite He end.
Qed.

(** An extractor built by [__init__] that is available has its model. *)
Lemma init_available_model (W : World) (key GEMINI_MODEL : text) :
  is_available (__init__ W key GEMINI_MODEL) = true ->
  exists m, model (__init__ W key GEMINI_MODEL) = Some m.
Proof.
  unfold __init__. destruct key as [|c key]; [discriminate|].
  destruct (genai_configure W (c :: key)); [discriminate|].
  match goal with |- context [GenerativeModel W ?n] =>
    destruct (GenerativeModel W n) as [e|m] end; [discriminate|].
  intros _. now exists m.
Qed.

(* ----------------------------------------------------------------- *)
(** *** C1 *)

(** C1 as stated fails: the model output is stripped before it is used, so
    for an answer with white space around it [raw_text] is not that
    answer. *)
Lemma C1_counterexample :
  ~ (forall (W : World) (self : GeminiExtractor) (image_bytes : bytes)
            (image : Image) (m : Model) (output : text) (log : list call),
        _available self = true ->
        model self = Some m ->
        Image_open W image_bytes = inr image ->
        generate_content W m prompt image = inr output ->
        json_loads W output = None ->
        exists data,
          fst (extract_bytes W self image_bytes log)
            = inr (success_result data)
          /\ item data (lit "subjects") = Some (PList [])
          /\ item data (lit "raw_text") = Some (PStr (u output))).
Proof.
  intros H.
  destruct (H (stub (inr an_image) (inr (txt " hello "))) ready []
              an_image {| model_name := txt "gemini-2.5-flash" |}
              (txt " hello ") []
              eq_refl eq_refl eq_refl eq_refl eq_refl)
    as (data & Hrun & _ & Hraw).
  vm_compute in Hrun. injection Hrun as <-.
  vm_compute in Hraw. discriminate.
Qed.

(** C1, amended.  With the gateway available and a decodable image, for
    every model output whose stripped text is not valid JSON,
    [extract_bytes] returns Success with [subjects] the empty sequence and
    [raw_text] the model output stripped of leading and trailing white
    space, which is the text the other fields are derived from. *)
Theorem C1_fallback_raw_text (W : World) (self : GeminiExtractor)
        (image_bytes : bytes) (image : Image) (m : Model) (output : text)
        (log : list call) :
  _available self = true ->
  model self = Some m ->
  Image_open W image_bytes = inr image ->
  generate_content W m prompt image = inr output ->
  json_loads W (Str.strip output) = None ->
  exists data,
    fst (extract_bytes W self image_bytes log) = inr (success_result data)
    /\ data = fallback_data (Str.strip output)
    /\ item data (lit "subjects") = Some (PList [])
    /\ item data (lit "raw_text") = Some (PStr (u (Str.strip output))).
Proof.
  intros Ha Hm Hi Hg Hj.
  rewrite (extract_bytes_answered W self image_bytes image m output log)
    by assumption.
  rewrite Hj. exists (fallback_data (Str.strip output)).
  repeat split.
Qed.

Lemma C1_fallback_raw_text_witness :
  exists data,
    fst (extract_bytes (stub (inr an_image) (inr (txt " Grade: 5 "))) ready
                       [] [])
      = inr (success_result data)
    /\ data = fallback_data (Str.strip (txt " Grade: 5 "))
    /\ item data (lit "subjects") = Some (PList [])
    /\ item data (lit "raw_text")
       = Some (PStr (u (Str.strip (txt " Grade: 5 ")))).
Proof.
  apply (C1_fallback_raw_text
           (stub (inr an_image) (inr (txt " Grade: 5 "))) ready []
           an_image {| model_name := txt "gemini-2.5-flash" |}
           (txt " Grade: 5 ") []);
    reflexivity.
Defined.

(* ----------------------------------------------------------------- *)
(** *** C2 *)

(** C2.  With the gateway available and a decodable image, for every
    model output that parses as a JSON object of the [ExtractedFields]
    shape, [extract_bytes] returns Success with the parsed value as its
    data: the heuristic fallback has no part in it. *)
Theorem C2_parsed_json_returned (W : World) (self : GeminiExtractor)
        (image_bytes : bytes) (image : Image) (m : Model) (output : text)
        (v : pyval) (log : list call) :
  is_available self = true ->
  model self = Some m ->
  Image_open W image_bytes = inr image ->
  generate_content W m prompt image = inr output ->
  json_loads W output = Some v ->
  ExtractedFields v = true ->
  fst (extract_bytes W self image_bytes log) = inr (success_result v).
Proof.
  intros Ha Hm Hi Hg Hj _.
  rewrite (extract_bytes_answered W self image_bytes image m output log)
    by assumption.
  now rewrite (json_loads_strip W output v Hj).
Qed.

Lemma C2_parsed_json_returned_witness :
  fst (extract_bytes (stub (inr an_image) (inr sample_answer)) ready [] [])
  = inr (success_result sample_fields).
Proof.
  apply (C2_parsed_json_returned
           (stub (inr an_image) (inr sample_answer)) ready []
           an_image {| model_name := txt "gemini-2.5-flash" |}
           sample_answer sample_fields []);
    reflexivity.
Defined.

(* ----------------------------------------------------------------- *)
(** *** C3 *)

(** C3 as stated fails on the message: an unavailable gateway answers
    "Gemini API not available". *)
Lemma C3_counterexample :
  ~ (forall (W : World) (self : GeminiExtractor) (image_bytes : bytes)
            (log : list call),
        _available self = false ->
        extract_bytes W self image_bytes log
        = (inr (error_result (txt "model not available")), log)).
Proof.
  intros H.
  specialize (H (stub (inr an_image) (inr [])) unavailable [] [] eq_refl).
  vm_compute in H. discriminate.
Qed.

(** C3, amended.  For every byte buffer, an unavailable gateway (no API
    key, or a failed initialization) returns Failure with the message
    "Gemini API not available" at once: the call log is unchanged, so no
    image decode was attempted and the model was not called. *)
Theorem C3_unavailable (W : World) (self : GeminiExtractor)
        (image_bytes : bytes) (log : list call) :
  is_available self = false ->
  extract_bytes W self image_bytes log
  = (inr (error_result (txt "Gemini API not available")), log).
Proof.
  unfold is_available. intros Ha. unfold extract_bytes. now rewrite Ha.
Qed.

Lemma C3_unavailable_witness :
  extract_bytes (stub (inr an_image) (inr []))
                (__init__ (stub (inr an_image) (inr [])) []
                          (txt "gemini-2.5-flash"))
                [] []
  = (inr (error_result (txt "Gemini API not available")), []).
Proof.
  apply (C3_unavailable (stub (inr an_image) (inr []))
                        (__init__ (stub (inr an_image) (inr [])) []
                                  (txt "gemini-2.5-flash"))
                        [] []).
  reflexivity.
Defined.

(* ----------------------------------------------------------------- *)
(** *** C4 *)

(** C4 as stated fails on the message: a buffer that does not decode is
    answered through the general handler, with the decoder's own words
    after "Extraction failed: ". *)
Lemma C4_counterexample :
  ~ (forall (W : World) (self : GeminiExtractor) (image_bytes : bytes)
            (e : exn) (log : list call),
        _available self = true ->
        Image_open W image_bytes = inl e ->
        fst (extract_bytes W self image_bytes log)
          = inr (error_result (txt "invalid or corrupt image"))
        /\ model_calls (snd (extract_bytes W self image_bytes log))
           = model_calls log).
Proof.
  intros H.
  destruct (H (stub (inl (Exception (txt "cannot identify image file")))
                    (inr []))
              ready [] (Exception (txt "cannot identify image file")) []
              eq_refl eq_refl) as [Hres _].
  vm_compute in Hres. discriminate.
Qed.

(** C4, amended.  With the gateway available, for every byte buffer that
    does not decode as an image, [extract_bytes] returns Failure with the
    message "Extraction failed: " followed by the decoder's error text,
    and the model is never called: the decode attempt is the only call
    added to the log. *)
Theorem C4_undecodable (W : World) (self : GeminiExtractor)
        (image_bytes : bytes) (e : exn) (log : list call) :
  is_available self = true ->
  Image_open W image_bytes = inl e ->
  extract_bytes W self image_bytes log
  = (inr (error_result (txt "Extraction failed: " ++ str_exn W e)),
     log ++ [CallImageOpen image_bytes])
  /\ model_calls (snd (extract_bytes W self image_bytes log))
     = model_calls log.
Proof.
  intros Ha Hi.
  rewrite (extract_bytes_undecodable W self image_bytes e log Ha Hi).
  split; [reflexivity|].
  cbn [snd]. unfold model_calls.
  rewrite filter_app, length_app. cbn. lia.
Qed.

Lemma C4_undecodable_witness :
  let W := stub (inl (Exception (txt "cannot identify image file")))
                (inr []) in
  extract_bytes W ready [] []
  = (inr (error_result
            (txt "Extraction failed: cannot identify image file")),
     [CallImageOpen []])
  /\ model_calls (snd (extract_bytes W ready [] [])) = model_calls [].
Proof.
  exact (C4_undecodable
           (stub (inl (Exception (txt "cannot identify image file")))
                 (inr []))
           ready [] (Exception (txt "cannot identify image file")) []
           eq_refl eq_refl).
Defined.

(* ----------------------------------------------------------------- *)
(** *** C6 *)

(** Whatever the collaborators do, [extract_bytes] returns, and what it
    returns has one of the two shapes. *)
Lemma extract_bytes_returns (W : World) (self : GeminiExtractor)
      (image_bytes : bytes) (log : list call) :
  exists (r : pyval) (log' : list call),
    extract_bytes W self image_bytes log = (inr r, log')
    /\ well_formed_result r.
Proof.
  destruct (_available self) eqn:Ha.
  - destruct (Image_open W image_bytes) as [e|image] eqn:Hi.
    + rewrite (extract_bytes_undecodable W self image_bytes e log Ha Hi).
      do 2 eexists. split; [reflexivity|]. right. now eexists.
    + destruct (model self) as [m|] eqn:Hm.
      * destruct (generate_content W m prompt image) as [e|output] eqn:Hg.
        -- rewrite (extract_bytes_model_error W self image_bytes image m e log)
             by assumption.
           do 2 eexists. split; [reflexivity|]. right. now eexists.
        -- rewrite (extract_bytes_answered W self image_bytes image m output
                                           log) by assumption.
           do 2 eexists. split; [reflexivity|]. left. now eexists.
      * unfold extract_bytes, model_text, try_except, bind, ask, ret, raise.
        rewrite Ha, Hi, Hm. cbn [negb].
        do 2 eexists. split; [reflexivity|]. right. now eexists.
  - unfold extract_bytes. rewrite Ha. cbn [negb].
    do 2 eexists. split; [reflexivity|]. right. now eexists.
Qed.

(** C6 as stated fails on the message of the general handler, which
    starts with a capital: "Extraction failed: ". *)
Lemma C6_counterexample :
  ~ (forall (W : World) (self : GeminiExtractor) (image_bytes : bytes)
            (log : list call),
        exists (r : pyval) (log' : list call),
          extract_bytes W self image_bytes log = (inr r, log')
          /\ well_formed_result r
          /\ (forall e : exn,
                 is_available self = true ->
                 Image_open W image_bytes = inl e ->
                 r = error_result (txt "extraction failed: " ++ str_exn W e))).
Proof.
  intros H.
  destruct (H (stub (inl (Exception (txt "cannot identify image file")))
                    (inr []))
              ready [] []) as (r & log' & Hrun & _ & Hmsg).
  specialize (Hmsg (Exception (txt "cannot identify image file"))
                   eq_refl eq_refl).
  subst r. vm_compute in Hrun. discriminate.
Qed.

(** C6, amended.  For every byte buffer and every behaviour of the
    decoder and of the model, raising included, no exception leaves
    [extract_bytes]: it returns a result of one of the two shapes, and a
    failure that reaches the general handler (in this code, a failed image
    decode) is returned as Failure with the message "Extraction failed: "
    followed by the error's text. *)
Theorem C6_no_exception_escapes (W : World) (self : GeminiExtractor)
        (image_bytes : bytes) (log : list call) :
  exists (r : pyval) (log' : list call),
    extract_bytes W self image_bytes log = (inr r, log')
    /\ well_formed_result r
    /\ (forall e : exn,
           is_available self = true ->
           Image_open W image_bytes = inl e ->
           r = error_result (txt "Extraction failed: " ++ str_exn W e)).
Proof.
  destruct (extract_bytes_returns W self image_bytes log)
    as (r & log' & Hrun & Hwf).
  exists r, log'. repeat split; try assumption.
  intros e Ha Hi.
  rewrite (extract_bytes_undecodable W self image_bytes e log Ha Hi) in Hrun.
  now injection Hrun as <- _.
Qed.

(* ----------------------------------------------------------------- *)
(** *** C7 *)

(** C7.  Once the model call has succeeded, [extract_bytes] returns
    Success for every model output: output that does not parse goes
    through the heuristic fallback, and the failed parse never reaches the
    caller as a Failure. *)
Theorem C7_success_after_model_call (W : World) (self : GeminiExtractor)
        (image_bytes : bytes) (image : Image) (m : Model) (output : text)
        (log : list call) :
  is_available self = true ->
  model self = Some m ->
  Image_open W image_bytes = inr image ->
  generate_content W m prompt image = inr output ->
  (exists data,
      fst (extract_bytes W self image_bytes log) = inr (success_result data))
  /\ (json_loads W (Str.strip output) = None ->
      fst (extract_bytes W self image_bytes log)
      = inr (success_result (fallback_data (Str.strip output))))
  /\ (forall message,
         fst (extract_bytes W self image_bytes log)
         <> inr (error_result message))
  /\ (forall e, fst (extract_bytes W self image_bytes log) <> inl e).
Proof.
  intros Ha Hm Hi Hg.
  rewrite (extract_bytes_answered W self image_bytes image m output log)
    by assumption.
  cbn [fst]. repeat split.
  - now eexists.
  - now intros ->.
  - intros message H. discriminate H.
  - intros e H. discriminate H.
Qed.

Lemma C7_success_after_model_call_witness :
  let W := stub (inr an_image) (inr (txt "not { json")) in
  (exists data,
      fst (extract_bytes W ready [] []) = inr (success_result data))
  /\ (json_loads W (Str.strip (txt "not { json")) = None ->
      fst (extract_bytes W ready [] [])
      = inr (success_result (fallback_data (Str.strip (txt "not { json")))))
  /\ (forall message,
         fst (extract_bytes W ready [] []) <> inr (error_result message))
  /\ (forall e, fst (extract_bytes W ready [] []) <> inl e).
Proof.
  exact (C7_success_after_model_call
           (stub (inr an_image) (inr (txt "not { json"))) ready []
           an_image {| model_name := txt "gemini-2.5-flash" |}
           (txt "not { json") [] eq_refl eq_refl eq_refl eq_refl).
Defined.

(* ----------------------------------------------------------------- *)
(** *** C9 *)

(** C9.  The JSON branch checks no schema: whatever [json.loads] makes of
    the text it is given (the stripped model output), an object or not, is
    the Success data as it is, with no key added; the fallback runs
    exactly when the parse raises.  A model output that parses before
    stripping parses to the same value after it. *)
Theorem C9_no_schema_validation (W : World) (self : GeminiExtractor)
        (image_bytes : bytes) (image : Image) (m : Model) (output : text)
        (log : list call) :
  is_available self = true ->
  model self = Some m ->
  Image_open W image_bytes = inr image ->
  generate_content W m prompt image = inr output ->
  (forall v : pyval,
      json_loads W (Str.strip output) = Some v ->
      fst (extract_bytes W self image_bytes log) = inr (success_result v))
  /\ (json_loads W (Str.strip output) = None ->
      fst (extract_bytes W self image_bytes log)
      = inr (success_result (fallback_data (Str.strip output))))
  /\ (forall v : pyval,
         json_loads W output = Some v ->
         fst (extract_bytes W self image_bytes log) = inr (success_result v)).
Proof.
  intros Ha Hm Hi Hg.
  rewrite (extract_bytes_answered W self image_bytes image m output log)
    by assumption.
  cbn [fst]. split; [|split].
  - now intros v ->.
  - now intros ->.
  - intros v Hj. now rewrite (json_loads_strip W output v Hj).
Qed.

(** A bare number, a string, a boolean and an array each come back as the
    Success data. *)
Lemma C9_no_schema_validation_witness :
  fst (extract_bytes (stub (inr an_image) (inr (txt " 42 "))) ready [] [])
    = inr (success_result (PInt 42))
  /\ fst (extract_bytes (stub (inr an_image) (inr (quoted "'Jane'")))
                        ready [] [])
     = inr (success_result (PStr (lit "Jane")))
  /\ fst (extract_bytes (stub (inr an_image) (inr (txt "true"))) ready [] [])
     = inr (success_result (PBool true))
  /\ fst (extract_bytes (stub (inr an_image) (inr (txt "[1, null]")))
                        ready [] [])
     = inr (success_result (PList [PInt 1; PNone])).
Proof.
  split; [|split; [|split]].
  - exact (proj1 (C9_no_schema_validation
                    (stub (inr an_image) (inr (txt " 42 "))) ready []
                    an_image {| model_name := txt "gemini-2.5-flash" |}
                    (txt " 42 ") [] eq_refl eq_refl eq_refl eq_refl)
                 (PInt 42) eq_refl).
  - exact (proj1 (C9_no_schema_validation
                    (stub (inr an_image) (inr (quoted "'Jane'"))) ready []
                    an_image {| model_name := txt "gemini-2.5-flash" |}
                    (quoted "'Jane'") [] eq_refl eq_refl eq_refl eq_refl)
                 (PStr (lit "Jane")) eq_refl).
  - exact (proj1 (C9_no_schema_validation
                    (stub (inr an_image) (inr (txt "true"))) ready []
                    an_image {| model_name := txt "gemini-2.5-flash" |}
                    (txt "true") [] eq_refl eq_refl eq_refl eq_refl)
                 (PBool true) eq_refl).
  - exact (proj1 (C9_no_schema_validation
                    (stub (inr an_image) (inr (txt "[1, null]"))) ready []
                    an_image {| model_name := txt "gemini-2.5-flash" |}
                    (txt "[1, null]") [] eq_refl eq_refl eq_refl eq_refl)
                 (PList [PInt 1; PNone]) eq_refl).
Defined.

End Gateway.

(* ================================================================= *)
(** ** The front door: [POST /api/extract] *)

Section FrontDoor.

Import Extractor Main.

(** C8.  An upload whose declared content type does not start with
    "image/" is refused with status 400 and the detail "File must be an
    image"; the handler stops there, the log is as it was, so the
    gateway's [extract_bytes] was not entered. *)
Theorem C8_non_image_rejected (W : World) (extractor : GeminiExtractor)
        (image : UploadFile) (declared : text) (log : list call) :
  content_type image = Some declared ->
  Str.startswith declared (txt "image/") = false ->
  extract_text W extractor image log
  = (inl (HTTPException 400 (PStr (lit "File must be an image"))), log)
  /\ respond W (fst (extract_text W extractor image log))
     = {| status := 400;
          body := PDict [(lit "detail", PStr (lit "File must be an image"))] |}
  /\ extract_calls (snd (extract_text W extractor image log))
     = extract_calls log.
Proof.
  intros Hc Hs.
  assert (E : extract_text W extractor image log
              = (inl (HTTPException 400 (PStr (lit "File must be an image"))),
                 log)).
  { unfold extract_text, bind, lift, ret, raise. rewrite Hc, Hs. reflexivity. }
  rewrite E. repeat split.
Qed.

Lemma C8_non_image_rejected_witness :
  let upload := {| filename := txt "notes.txt";
                   content_type := Some (txt "text/plain");
                   read := inr [] |} in
  let W := stub (inr an_image) (inr []) in
  extract_text W ready upload []
  = (inl (HTTPException 400 (PStr (lit "File must be an image"))), [])
  /\ respond W (fst (extract_text W ready upload []))
     = {| status := 400;
          body := PDict [(lit "detail", PStr (lit "File must be an image"))] |}
  /\ extract_calls (snd (extract_text W ready upload [])) = extract_calls [].
Proof.
  exact (C8_non_image_rejected
           (stub (inr an_image) (inr [])) ready
           {| filename := txt "notes.txt";
              content_type := Some (txt "text/plain");
              read := inr [] |}
           (txt "text/plain") [] eq_refl eq_refl).
Defined.

(** An image upload does reach the gateway: the rejection above is the
    content type's doing. *)
Example image_upload_reaches_gateway :
  let upload := {| filename := txt "report.png";
                   content_type := Some (txt "image/png");
                   read := inr [] |} in
  extract_calls
    (snd (extract_text (stub (inr an_image) (inr (txt "{}"))) ready upload []))
  = 1.
Proof. reflexivity. Qed.

(** An upload that declares no content type at all is not refused with
    400: the test itself raises, outside the handler's [try]. *)
Example undeclared_content_type :
  let upload := {| filename := txt "report.png";
                   content_type := None;
                   read := inr [] |} in
  status (respond default_world
                  (fst (extract_text default_world ready upload [])))
  = 500%Z.
Proof. reflexivity. Qed.

End FrontDoor.

(* ================================================================= *)
(** ** More on [_extract_field] *)

Section FieldFacts.

Import Str.

Lemma lower_char_idem (c : ascii) : lower_char (lower_char c) = lower_char c.
Proof. destruct c as [[] [] [] [] [] [] [] []]; reflexivity. Qed.

Lemma isspace_lower_char (c : ascii) : isspace (lower_char c) = isspace c.
Proof. destruct c as [[] [] [] [] [] [] [] []]; reflexivity. Qed.

Lemma lower_idem (s : text) : lower (lower s) = lower s.
Proof.
  unfold lower. rewrite map_map. apply map_ext. apply lower_char_idem.
Qed.

Lemma lstrip_lower (s : text) : lstrip (lower s) = lower (lstrip s).
Proof.
  induction s as [|c s IH]; [reflexivity|].
  simpl. rewrite isspace_lower_char. now destruct (isspace c).
Qed.

Lemma strip_lower (s : text) : strip (lower s) = lower (strip s).
Proof.
  unfold strip, rstrip. rewrite lstrip_lower.
  unfold lower at 1. rewrite <- map_rev. fold (lower (rev (lstrip s))).
  rewrite lstrip_lower. unfold lower. now rewrite map_rev.
Qed.

Lemma startswith_incl (k s : text) : startswith s k = true -> incl k s.
Proof.
  revert s. induction k as [|a k IH]; intros s H.
  - intros x [].
  - destruct s as [|b s]; [discriminate|].
    simpl in H. apply andb_true_iff in H as [Hab H].
    apply Ascii.eqb_eq in Hab. subst b.
    intros x [<-|Hx]; [now left|]. right. now apply (IH s H).
Qed.

Lemma contains_incl (k s : text) : contains k s = true -> incl k s.
Proof.
  induction s as [|c s IH]; intros H.
  - simpl in H. rewrite orb_false_r in H. now apply startswith_incl.
  - cbn [contains] in H. apply orb_true_iff in H as [H|H].
    + now apply startswith_incl.
    + intros x Hx. right. now apply IH.
Qed.

(** Only a keyword in lower case can occur in a lowered text. *)
Lemma contains_lower_fixed (k t : text) :
  contains k (lower t) = true -> lower k = k.
Proof.
  intros H. apply contains_incl in H.
  unfold lower. rewrite <- (map_id k) at 2. apply map_ext_in.
  intros c Hc. apply H in Hc. unfold lower in Hc.
  apply in_map_iff in Hc as (c' & <- & _). apply lower_char_idem.
Qed.

Lemma split_lines_incl (t l : text) : In l (split_lines t) -> incl l t.
Proof.
  revert l. induction t as [|c t IH]; intros l H.
  - simpl in H. destruct H as [<-|[]]. intros x [].
  - cbn [split_lines] in H. destruct (Ascii.eqb c newline).
    + destruct H as [<-|H]; [intros x []|].
      intros x Hx. right. now apply (IH l).
    + destruct (split_lines t) as [|l0 ls] eqn:E.
      { now apply split_lines_not_nil in E. }
      destruct H as [<-|H].
      * intros x [<-|Hx]; [now left|]. right. apply (IH l0); [now left|exact Hx].
      * intros x Hx. right. apply (IH l); [now right|exact Hx].
Qed.

Lemma split_lines_no_newline (t l : text) :
  In l (split_lines t) -> ~ In newline l.
Proof.
  revert l. induction t as [|c t IH]; intros l H.
  - simpl in H. destruct H as [<-|[]]. intros [].
  - cbn [split_lines] in H. destruct (Ascii.eqb c newline) eqn:Ec.
    + destruct H as [<-|H]; [intros []|]. now apply IH.
    + destruct (split_lines t) as [|l0 ls] eqn:E.
      { now apply split_lines_not_nil in E. }
      destruct H as [<-|H].
      * intros [->|Hx].
        -- unfold newline in Ec. now rewrite Ascii.eqb_refl in Ec.
        -- revert Hx. apply IH. now left.
      * apply IH. now right.
Qed.

Lemma lstrip_all_space (w : text) : all_space w = true -> lstrip w = [].
Proof.
  induction w as [|c w IH]; [reflexivity|].
  intros H. apply andb_true_iff in H as [Hc H].
  simpl. rewrite Hc. now apply IH.
Qed.

Lemma strip_all_space (w : text) : all_space w = true -> strip w = [].
Proof. intros H. unfold strip, rstrip. now rewrite (lstrip_all_space w H). Qed.

Lemma lstrip_head (s : text) :
  lstrip s = [] \/ exists c r, lstrip s = c :: r /\ isspace c = false.
Proof.
  induction s as [|c s IH]; [now left|].
  simpl. destruct (isspace c) eqn:E; [exact IH|].
  right. now exists c, s.
Qed.

Lemma lstrip_idem (s : text) : lstrip (lstrip s) = lstrip s.
Proof.
  destruct (lstrip_head s) as [->|(c & r & -> & Hc)]; [reflexivity|].
  simpl. now rewrite Hc.
Qed.

(** The parts of a text around what [strip] keeps. *)
Lemma strip_parts (s : text) :
  exists lead trail,
    s = lead ++ strip s ++ trail
    /\ all_space lead = true /\ all_space trail = true
    /\ lstrip s = strip s ++ trail.
Proof.
  destruct (lstrip_split s) as (lead & E & Hl).
  destruct (lstrip_split (rev (lstrip s))) as (tail & F & Ht).
  assert (G : lstrip s = strip s ++ rev tail).
  { unfold strip, rstrip.
    rewrite <- rev_app_distr, <- F. now rewrite rev_involutive. }
  exists lead, (rev tail). repeat split.
  - now rewrite <- G.
  - exact Hl.
  - now rewrite all_space_rev.
  - exact G.
Qed.

Lemma strip_incl (s : text) : incl (strip s) s.
Proof.
  destruct (strip_parts s) as (lead & trail & E & _).
  intros x Hx. rewrite E. apply in_or_app. right.
  apply in_or_app. now left.
Qed.

Lemma strip_idem (s : text) : strip (strip s) = strip s.
Proof.
  destruct (strip_parts s) as (lead & trail & _ & _ & _ & G).
  assert (L : lstrip (strip s) = strip s).
  { destruct (strip s) as [|c r] eqn:E; [reflexivity|].
    destruct (lstrip_head s) as [H|(c' & r' & H & Hc)].
    - rewrite H in G. discriminate.
    - rewrite H in G. injection G as -> _. simpl. now rewrite Hc. }
  unfold strip at 1. rewrite L. unfold strip, rstrip.
  now rewrite rev_involutive, lstrip_idem.
Qed.

(** What [_extract_field] can answer: nothing, or the trimmed text of a
    line of the text that holds one of the keywords. *)
Lemma extract_field_cases (t : text) (keywords : list text) :
  _extract_field t keywords = []
  \/ exists k line,
      In k keywords /\ In line (split_lines t)
      /\ contains k (lower line) = true
      /\ _extract_field t keywords = strip line.
Proof.
  induction keywords as [|k rest IH]; [now left|].
  assert (Hrest : _extract_field t rest = []
                  \/ exists k0 line,
                      In k0 (k :: rest) /\ In line (split_lines t)
                      /\ contains k0 (lower line) = true
                      /\ _extract_field t rest = strip line).
  { destruct IH as [H|(k0 & line & H1 & H2)]; [now left|].
    right. exists k0, line. split; [now right | exact H2]. }
  cbn [_extract_field].
  destruct (contains k (lower t)); [|exact Hrest].
  rewrite first_line_with_find.
  destruct (find (fun l => contains k (lower l)) (split_lines t))
    as [line|] eqn:F; [|exact Hrest].
  apply find_some in F as [Hin Hc].
  right. exists k, line. repeat split; try assumption. now left.
Qed.

(* ----------------------------------------------------------------- *)
(** *** X1 *)

(** X1.  A field found by [_extract_field] is never made up: it is empty,
    or it is the trimmed text of a line of the input that holds, case set
    aside, one of the keywords. *)
Theorem X1_field_comes_from_a_line (t : text) (keywords : list text) :
  _extract_field t keywords = []
  \/ exists k line,
      In k keywords /\ In line (split_lines t)
      /\ contains k (lower line) = true
      /\ _extract_field t keywords = strip line.
Proof. apply extract_field_cases. Qed.

(* ----------------------------------------------------------------- *)
(** *** X2 *)

(** X2.  A field found by [_extract_field] is one trimmed line: it holds
    no newline, and stripping it again changes nothing. *)
Theorem X2_field_is_one_trimmed_line (t : text) (keywords : list text) :
  ~ In newline (_extract_field t keywords)
  /\ strip (_extract_field t keywords) = _extract_field t keywords.
Proof.
  destruct (extract_field_cases t keywords)
    as [E|(k & line & _ & Hin & _ & E)]; rewrite E.
  - split; [intros [] | reflexivity].
  - split; [|apply strip_idem].
    intros H. apply strip_incl in H.
    now apply (split_lines_no_newline t line Hin).
Qed.

(* ----------------------------------------------------------------- *)
(** *** X3 *)

(** X3.  A keyword that is not in lower case is never found: the text is
    lowered before the test, the keyword is not, so such a keyword is
    passed over whatever the text holds. *)
Theorem X3_keyword_must_be_lower_case (t k : text) (rest : list text) :
  lower k <> k ->
  _extract_field t (k :: rest) = _extract_field t rest.
Proof.
  intros Hk. apply extract_field_skip.
  destruct (contains k (lower t)) eqn:E; [|reflexivity].
  now apply contains_lower_fixed in E.
Qed.

Lemma X3_keyword_must_be_lower_case_witness :
  _extract_field (txt "Name: Ann") (txt "Name" :: []) = _extract_field (txt "Name: Ann") [].
Proof.
  apply (X3_keyword_must_be_lower_case (txt "Name: Ann") (txt "Name") []).
  vm_compute. discriminate.
Defined.

(* ----------------------------------------------------------------- *)
(** *** X4 *)

Lemma first_line_with_lower (k : text) (ls : list text) :
  first_line_with k (map lower ls) = option_map lower (first_line_with k ls).
Proof.
  induction ls as [|l ls IH]; [reflexivity|].
  cbn [map first_line_with]. rewrite lower_idem.
  destruct (contains k (lower l)); [|exact IH].
  cbn [option_map]. now rewrite strip_lower.
Qed.

Lemma extract_field_lower (t : text) (keywords : list text) :
  _extract_field (lower t) keywords = lower (_extract_field t keywords).
Proof.
  induction keywords as [|k rest IH]; [reflexivity|].
  cbn [_extract_field]. rewrite lower_idem, split_lines_lower.
  rewrite first_line_with_lower.
  destruct (contains k (lower t)); [|exact IH].
  destruct (first_line_with k (split_lines t)); [reflexivity | exact IH].
Qed.

(** X4.  The scan does not see the case of the text: two texts that are
    equal once lowered give fields that are equal once lowered, taken
    from the same line. *)
Theorem X4_case_of_text_is_ignored (t1 t2 : text) (keywords : list text) :
  lower t1 = lower t2 ->
  lower (_extract_field t1 keywords) = lower (_extract_field t2 keywords).
Proof.
  intros H. now rewrite <- !extract_field_lower, H.
Qed.

Lemma X4_case_of_text_is_ignored_witness :
  lower (_extract_field (lines2 "REPORT" "GRADE: 5") [txt "grade"])
  = lower (_extract_field (lines2 "Report" "Grade: 5") [txt "grade"]).
Proof.
  apply (X4_case_of_text_is_ignored (lines2 "REPORT" "GRADE: 5")
                                    (lines2 "Report" "Grade: 5")
                                    [txt "grade"]).
  reflexivity.
Defined.

(* ----------------------------------------------------------------- *)
(** *** X5 *)

(** X5.  On a text that is empty or holds white space only, every field
    is the empty string, whatever the keywords, the empty keyword and
    keywords of white space included. *)
Theorem X5_blank_text_gives_empty_field (t : text) (keywords : list text) :
  all_space t = true -> _extract_field t keywords = [].
Proof.
  intros Ht.
  destruct (extract_field_cases t keywords)
    as [E|(k & line & _ & Hin & _ & E)]; [exact E|].
  rewrite E. apply strip_all_space.
  apply forallb_forall. intros c Hc.
  apply (split_lines_incl t line Hin) in Hc.
  unfold all_space in Ht. rewrite forallb_forall in Ht. now apply Ht.
Qed.

Lemma X5_blank_text_gives_empty_field_witness :
  _extract_field (lines2 "  " " ") [txt " "; []] = [].
Proof.
  apply (X5_blank_text_gives_empty_field (lines2 "  " " ") [txt " "; []]).
  reflexivity.
Defined.

End FieldFacts.

(* ================================================================= *)
(** ** More on the gateway *)

Section GatewayFacts.

Import Extractor.

(** The run when the image decodes but the extractor has no model. *)
Lemma extract_bytes_no_model (W : World) (self : GeminiExtractor)
      (image_bytes : bytes) (image : Image) (log : list call) :
  _available self = true ->
  model self = None ->
  Image_open W image_bytes = inr image ->
  extract_bytes W self image_bytes log
  = (inr (error_result
            (txt "'GeminiExtractor' object has no attribute 'model'")),
     log ++ [CallImageOpen image_bytes]).
Proof.
  intros Ha Hm Hi.
  unfold extract_bytes, model_text, try_except, bind, ask, ret, raise.
  now rewrite Ha, Hm, Hi.
Qed.

(** What a run adds to the call log: nothing, the decode, or the decode
    and then the model call on the decoded image. *)
Lemma extract_bytes_added (W : World) (self : GeminiExtractor)
      (image_bytes : bytes) (log : list call) :
  exists (r : pyval) (added : list call),
    (forall log0, extract_bytes W self image_bytes log0 = (inr r, log0 ++ added))
    /\ (added = [] /\ _available self = false
        \/ added = [CallImageOpen image_bytes] /\ _available self = true
        \/ exists m image,
            added = [CallImageOpen image_bytes;
                     CallGenerateContent m prompt image]
            /\ Image_open W image_bytes = inr image
            /\ model self = Some m).
Proof.
  destruct (_available self) eqn:Ha.
  - destruct (Image_open W image_bytes) as [e|image] eqn:Hi.
    + exists (error_result (txt "Extraction failed: " ++ str_exn W e)),
             [CallImageOpen image_bytes].
      split.
      * intros log0. now apply extract_bytes_undecodable.
      * right. left. now split.
    + destruct (model self) as [m|] eqn:Hm.
      * destruct (generate_content W m prompt image) as [e|output] eqn:Hg.
        -- exists (error_result (str_exn W e)),
                  [CallImageOpen image_bytes;
                   CallGenerateContent m prompt image].
           split.
           ++ intros log0.
              now rewrite (extract_bytes_model_error W self image_bytes image
                                                     m e log0).
           ++ right. right. now exists m, image.
        -- exists (success_result
                     match json_loads W (Str.strip output) with
                     | Some v => v
                     | None => fallback_data (Str.strip output)
                     end),
                  [CallImageOpen image_bytes;
                   CallGenerateContent m prompt image].
           split.
           ++ intros log0.
              now rewrite (extract_bytes_answered W self image_bytes image m
                                                  output log0).
           ++ right. right. now exists m, image.
      * exists (error_result
                  (txt "'GeminiExtractor' object has no attribute 'model'")),
               [CallImageOpen image_bytes].
        split.
        -- intros log0.
           now apply (extract_bytes_no_model W self image_bytes image).
        -- right. left. now split.
  - exists (error_result (txt "Gemini API not available")), [].
    split.
    + intros log0. unfold extract_bytes. rewrite Ha. cbn [negb].
      unfold ret. now rewrite app_nil_r.
    + left. now split.
Qed.

(** The answer does not depend on the log, and the log is only added to. *)
Lemma extract_bytes_frame (W : World) (self : GeminiExtractor)
      (image_bytes : bytes) (log : list call) :
  extract_bytes W self image_bytes log
  = (fst (extract_bytes W self image_bytes []),
     log ++ snd (extract_bytes W self image_bytes [])).
Proof.
  destruct (extract_bytes_added W self image_bytes log)
    as (r & added & H & _).
  now rewrite (H log), (H []).
Qed.

(* ----------------------------------------------------------------- *)
(** *** X6 *)

(** X6.  One call of [extract_bytes] makes one attempt: it only adds to
    the call log, and what it adds is nothing (gateway unavailable), one
    image decode, or one image decode followed by one model call with the
    fixed prompt and the image that the decode returned.  Nothing is
    decoded or asked twice. *)
Theorem X6_one_attempt (W : World) (self : GeminiExtractor)
        (image_bytes : bytes) (log : list call) :
  exists added : list call,
    snd (extract_bytes W self image_bytes log) = log ++ added
    /\ (added = [] /\ is_available self = false
        \/ added = [CallImageOpen image_bytes] /\ is_available self = true
        \/ exists m image,
            added = [CallImageOpen image_bytes;
                     CallGenerateContent m prompt image]
            /\ Image_open W image_bytes = inr image
            /\ model self = Some m).
Proof.
  destruct (extract_bytes_added W self image_bytes log)
    as (r & added & H & Hadded).
  exists added. now rewrite (H log).
Qed.

(* ----------------------------------------------------------------- *)
(** *** X7 *)

(** X7.  When the model call raises, the Failure carries the text of the
    exception as it is, without the "Extraction failed: " that a failed
    decode gets. *)
Theorem X7_model_error_verbatim (W : World) (self : GeminiExtractor)
        (image_bytes : bytes) (image : Image) (m : Model) (e : exn)
        (log : list call) :
  is_available self = true ->
  model self = Some m ->
  Image_open W image_bytes = inr image ->
  generate_content W m prompt image = inl e ->
  fst (extract_bytes W self image_bytes log)
  = inr (error_result (str_exn W e)).
Proof.
  intros Ha Hm Hi Hg.
  now rewrite (extract_bytes_model_error W self image_bytes image m e log).
Qed.

Lemma X7_model_error_verbatim_witness :
  fst (extract_bytes
         (stub (inr an_image) (inl (Exception (txt "429 quota exceeded"))))
         ready [] [])
  = inr (error_result (txt "429 quota exceeded")).
Proof.
  apply (X7_model_error_verbatim
           (stub (inr an_image) (inl (Exception (txt "429 quota exceeded"))))
           ready [] an_image {| model_name := txt "gemini-2.5-flash" |}
           (Exception (txt "429 quota exceeded")) []);
    reflexivity.
Defined.

(* ----------------------------------------------------------------- *)
(** *** X8 *)

(** X8.  When the parse fails, the Success data always has the full
    shape: the four scalar fields and [raw_text] are strings and
    [subjects] is a list, whatever the model wrote. *)
Theorem X8_fallback_has_every_field (W : World) (self : GeminiExtractor)
        (image_bytes : bytes) (image : Image) (m : Model) (output : text)
        (log : list call) :
  is_available self = true ->
  model self = Some m ->
  Image_open W image_bytes = inr image ->
  generate_content W m prompt image = inr output ->
  json_loads W (Str.strip output) = None ->
  exists data,
    fst (extract_bytes W self image_bytes log) = inr (success_result data)
    /\ ExtractedFields data = true.
Proof.
  intros Ha Hm Hi Hg Hj.
  rewrite (extract_bytes_answered W self image_bytes image m output log)
    by assumption.
  rewrite Hj. exists (fallback_data (Str.strip output)).
  split; reflexivity.
Qed.

Lemma X8_fallback_has_every_field_witness :
  exists data,
    fst (extract_bytes (stub (inr an_image) (inr (txt "no fields here")))
                       ready [] [])
      = inr (success_result data)
    /\ ExtractedFields data = true.
Proof.
  apply (X8_fallback_has_every_field
           (stub (inr an_image) (inr (txt "no fields here"))) ready []
           an_image {| model_name := txt "gemini-2.5-flash" |}
           (txt "no fields here") []);
    reflexivity.
Defined.

(* ----------------------------------------------------------------- *)
(** *** X9 *)

(** X9.  The health check and the gateway agree: [health_check] reports
    [extractor_available] false exactly when [extract_bytes] answers
    "Gemini API not available" without a call, for every world and
    buffer. *)
Theorem X9_health_agrees_with_gateway (self : GeminiExtractor) :
  item (Main.health_check self) (lit "extractor_available")
    = Some (PBool false)
  <-> forall (W : World) (image_bytes : bytes) (log : list call),
        extract_bytes W self image_bytes log
        = (inr (error_result (txt "Gemini API not available")), log).
Proof.
  change (item (Main.health_check self) (lit "extractor_available"))
    with (Some (PBool (_available self))).
  split.
  - intros H. injection H as H. intros W image_bytes log.
    unfold extract_bytes. now rewrite H.
  - intros H. destruct (_available self) eqn:Ha; [|reflexivity].
    exfalso.
    destruct (extract_bytes_added (stub (inr an_image) (inr [])) self [] [])
      as (r & added & Hrun & [[_ Hf] | [[-> _] | (m & image & -> & _)]]).
    + congruence.
    + specialize (Hrun []). rewrite H in Hrun.
      cbn [app] in Hrun. discriminate Hrun.
    + specialize (Hrun []). rewrite H in Hrun.
      cbn [app] in Hrun. discriminate Hrun.
Qed.

End GatewayFacts.

(* ================================================================= *)
(** ** More on the front door *)

Section FrontDoorFacts.

Import Extractor Main.

(** The handler on an upload that declares an image type and can be
    read, in terms of what the gateway answers on its bytes. *)
Lemma handler_on_image (W : World) (extractor : GeminiExtractor)
      (image : UploadFile) (declared : text) (content : bytes)
      (log : list call) :
  content_type image = Some declared ->
  Str.startswith declared (txt "image/") = true ->
  read image = inr content ->
  extract_text W extractor image log
  = let log' := (log ++ [CallRead] ++ [CallExtractBytes content])
                  ++ snd (extract_bytes W extractor content []) in
    match fst (extract_bytes W extractor content []) with
    | inl e => (inl (HTTPException 500 (PStr (u (str_exn W e)))), log')
    | inr result =>
        match item result (lit "type") with
        | None => (inl (HTTPException 500 (PStr (u (txt "KeyError")))), log')
        | Some type =>
            if is_str type "success" then
              match item result (lit "data") with
              | None =>
                  (inl (HTTPException 500 (PStr (u (txt "KeyError")))), log')
              | Some data =>
                  (inr (PDict [(lit "success", PBool true);
                               (lit "data", data)]), log')
              end
            else
              match item result (lit "error") with
              | None =>
                  (inl (HTTPException 500 (PStr (u (txt "KeyError")))), log')
              | Some detail =>
                  (inl (HTTPException 500
                          (PStr (u (str_HTTPException W 500 detail)))), log')
              end
        end
    end.
Proof.
  intros Hc Hs Hr.
  unfold extract_text, getitem, bind, lift, try_except, ask, note, ret, raise.
  rewrite Hc, Hs, Hr. cbn [negb].
  rewrite (extract_bytes_frame W extractor content
                               ((log ++ [CallRead]) ++ [CallExtractBytes content])).
  rewrite <- (app_assoc log).
  destruct (fst (extract_bytes W extractor content [])) as [e|result];
    [reflexivity|].
  destruct (item result (lit "type")) as [type|]; [|reflexivity].
  destruct (is_str type "success").
  - now destruct (item result (lit "data")).
  - now destruct (item result (lit "error")).
Qed.

(** The handler when reading the upload raises. *)
Lemma handler_read_raises (W : World) (extractor : GeminiExtractor)
      (image : UploadFile) (declared : text) (e : exn) (log : list call) :
  content_type image = Some declared ->
  Str.startswith declared (txt "image/") = true ->
  read image = inl e ->
  fst (extract_text W extractor image log)
  = inl (HTTPException 500 (PStr (u (str_exn W e))))
  /\ snd (extract_text W extractor image log) = log ++ [CallRead].
Proof.
  intros Hc Hs Hr.
  unfold extract_text, bind, lift, try_except, ask, ret, raise.
  now rewrite Hc, Hs, Hr.
Qed.

(* ----------------------------------------------------------------- *)
(** *** X10 *)

(** X10.  For an upload with an image content type whose bytes the
    gateway turns into Success, the handler returns
    [{"success": True, "data": data}], [data] being the gateway's data
    unchanged; the upload is read once and the gateway entered once, on
    the bytes that were read.  The answer is status 200 with that body
    when FastAPI can render it, and 500 Internal Server Error when it
    cannot. *)
Theorem X10_success_is_passed_on (W : World) (extractor : GeminiExtractor)
        (image : UploadFile) (declared : text) (content : bytes)
        (data : pyval) (log : list call) :
  content_type image = Some declared ->
  Str.startswith declared (txt "image/") = true ->
  read image = inr content ->
  fst (extract_bytes W extractor content []) = inr (success_result data) ->
  let returned := PDict [(lit "success", PBool true); (lit "data", data)] in
  fst (extract_text W extractor image log) = inr returned
  /\ respond W (fst (extract_text W extractor image log))
     = (if renders W returned
        then {| status := 200; body := returned |}
        else {| status := 500;
                body := PStr (lit "Internal Server Error") |})
  /\ snd (extract_text W extractor image log)
     = (log ++ [CallRead] ++ [CallExtractBytes content])
         ++ snd (extract_bytes W extractor content []).
Proof.
  intros Hc Hs Hr Hg.
  rewrite (handler_on_image W extractor image declared content log Hc Hs Hr).
  cbv zeta. rewrite Hg. repeat split.
Qed.

Lemma X10_success_is_passed_on_witness :
  let upload := {| filename := txt "report.png";
                   content_type := Some (txt "image/png");
                   read := inr [] |} in
  let W := stub (inr an_image) (inr sample_answer) in
  let returned := PDict [(lit "success", PBool true);
                         (lit "data", sample_fields)] in
  fst (extract_text W ready upload []) = inr returned
  /\ respond W (fst (extract_text W ready upload []))
     = {| status := 200; body := returned |}
  /\ snd (extract_text W ready upload [])
     = ([] ++ [CallRead] ++ [CallExtractBytes []])
         ++ snd (extract_bytes W ready [] []).
Proof.
  exact (X10_success_is_passed_on
           (stub (inr an_image) (inr sample_answer)) ready
           {| filename := txt "report.png";
              content_type := Some (txt "image/png");
              read := inr [] |}
           (txt "image/png") [] sample_fields []
           eq_refl eq_refl eq_refl eq_refl).
Defined.

(** A model answer that is JSON for Python and not for FastAPI: the
    gateway succeeds and the request fails. *)
Example nan_is_not_rendered :
  let upload := {| filename := txt "report.png";
                   content_type := Some (txt "image/png");
                   read := inr [] |} in
  let W := stub (inr an_image) (inr (txt "NaN")) in
  fst (extract_bytes W ready [] [])
    = inr (success_result (PFloat (txt "NaN")))
  /\ status (respond W (fst (extract_text W ready upload []))) = 500%Z.
Proof. split; reflexivity. Qed.

(* ----------------------------------------------------------------- *)
(** *** X11 *)

(** X11.  A Failure of the gateway is answered with status 500, but its
    message is not the detail as it is: the [HTTPException] raised for it
    inside the [try] is caught by the handler's own [except Exception]
    and raised anew, so the detail is [str()] of that first exception. *)
Theorem X11_failure_is_wrapped_twice (W : World) (extractor : GeminiExtractor)
        (image : UploadFile) (declared : text) (content : bytes)
        (message : text) (log : list call) :
  content_type image = Some declared ->
  Str.startswith declared (txt "image/") = true ->
  read image = inr content ->
  fst (extract_bytes W extractor content []) = inr (error_result message) ->
  fst (extract_text W extractor image log)
  = inl (HTTPException 500
           (PStr (u (str_exn W (HTTPException 500 (PStr (u message)))))))
  /\ status (respond W (fst (extract_text W extractor image log))) = 500%Z.
Proof.
  intros Hc Hs Hr Hg.
  rewrite (handler_on_image W extractor image declared content log Hc Hs Hr).
  cbv zeta. rewrite Hg. split; reflexivity.
Qed.

Lemma X11_failure_is_wrapped_twice_witness :
  let upload := {| filename := txt "report.png";
                   content_type := Some (txt "image/png");
                   read := inr [] |} in
  let W := stub (inr an_image) (inr []) in
  fst (extract_text W unavailable upload [])
  = inl (HTTPException 500
           (PStr (u (str_exn W (HTTPException 500
                                  (PStr (u (txt "Gemini API not available"))))))))
  /\ status (respond W (fst (extract_text W unavailable upload []))) = 500%Z.
Proof.
  exact (X11_failure_is_wrapped_twice
           (stub (inr an_image) (inr [])) unavailable
           {| filename := txt "report.png";
              content_type := Some (txt "image/png");
              read := inr [] |}
           (txt "image/png") [] (txt "Gemini API not available") []
           eq_refl eq_refl eq_refl eq_refl).
Defined.

(* ----------------------------------------------------------------- *)
(** *** X12 *)

(** X12.  When reading the upload raises, the answer is status 500 with
    the text of the exception as detail, and the gateway is not
    entered. *)
Theorem X12_read_error (W : World) (extractor : GeminiExtractor)
        (image : UploadFile) (declared : text) (e : exn) (log : list call) :
  content_type image = Some declared ->
  Str.startswith declared (txt "image/") = true ->
  read image = inl e ->
  extract_text W extractor image log
  = (inl (HTTPException 500 (PStr (u (str_exn W e)))), log ++ [CallRead])
  /\ extract_calls (snd (extract_text W extractor image log))
     = extract_calls log.
Proof.
  intros Hc Hs Hr.
  assert (E : extract_text W extractor image log
              = (inl (HTTPException 500 (PStr (u (str_exn W e)))),
                 log ++ [CallRead])).
  { unfold extract_text, bind, lift, try_except, ask, ret, raise.
    now rewrite Hc, Hs, Hr. }
  rewrite E. split; [reflexivity|].
  cbn [snd]. unfold extract_calls.
  rewrite filter_app, length_app. cbn. lia.
Qed.

Lemma X12_read_error_witness :
  let upload := {| filename := txt "report.png";
                   content_type := Some (txt "image/png");
                   read := inl (Exception (txt "connection reset")) |} in
  let W := stub (inr an_image) (inr []) in
  extract_text W ready upload []
  = (inl (HTTPException 500 (PStr (lit "connection reset"))), [CallRead])
  /\ extract_calls (snd (extract_text W ready upload [])) = extract_calls [].
Proof.
  exact (X12_read_error
           (stub (inr an_image) (inr [])) ready
           {| filename := txt "report.png";
              content_type := Some (txt "image/png");
              read := inl (Exception (txt "connection reset")) |}
           (txt "image/png") (Exception (txt "connection reset")) []
           eq_refl eq_refl eq_refl).
Defined.

(** The statuses of the handler. *)
Lemma handler_statuses (W : World) (extractor : GeminiExtractor)
        (image : UploadFile) (log : list call) :
  let answer := respond W (fst (extract_text W extractor image log)) in
  (status answer = 200%Z \/ status answer = 400%Z \/ status answer = 500%Z)
  /\ (status answer = 400%Z
      <-> exists declared,
            content_type image = Some declared
            /\ Str.startswith declared (txt "image/") = false)
  /\ (status answer = 200%Z ->
      item (body answer) (lit "success") = Some (PBool true)).
Proof.
  cbv zeta.
  destruct (content_type image) as [declared|] eqn:Hc.
  - destruct (Str.startswith declared (txt "image/")) eqn:Hs.
    + assert (E : (exists data,
                      fst (extract_text W extractor image log)
                      = inr (PDict [(lit "success", PBool true);
                                    (lit "data", data)]))
                  \/ (exists detail,
                         fst (extract_text W extractor image log)
                         = inl (HTTPException 500 detail))).
      { destruct (read image) as [e|content] eqn:Hr.
        - right. eexists.
          now rewrite (proj1 (handler_read_raises W extractor image declared e
                                                 log Hc Hs Hr)).
        - rewrite (handler_on_image W extractor image declared content log
                                    Hc Hs Hr).
          cbv zeta.
          destruct (fst (extract_bytes W extractor content []))
            as [e|result]; [right; now eexists|].
          destruct (item result (lit "type")) as [type|];
            [|right; now eexists].
          destruct (is_str type "success").
          + destruct (item result (lit "data")) as [data|];
              [left; now eexists | right; now eexists].
          + destruct (item result (lit "error"));
              right; now eexists. }
      destruct E as [[data E]|[detail E]]; rewrite E;
        cbn [respond status body].
      * destruct (renders W (PDict [(lit "success", PBool true);
                                    (lit "data", data)]));
          cbn [status body].
        -- split; [now left|]. split; [|reflexivity].
           split; [discriminate|].
           intros (d & Hd & Hf). injection Hd as <-. congruence.
        -- split; [now right; right|]. split; [|discriminate].
           split; [discriminate|].
           intros (d & Hd & Hf). injection Hd as <-. congruence.
      * split; [now right; right|]. split; [|discriminate].
        split; [discriminate|].
        intros (d & Hd & Hf). injection Hd as <-. congruence.
    + assert (E : fst (extract_text W extractor image log)
                  = inl (HTTPException 400
                           (PStr (lit "File must be an image")))).
      { unfold extract_text, bind, lift, ret, raise. now rewrite Hc, Hs. }
      rewrite E. cbn [respond status body].
      split; [now right; left|]. split; [|discriminate].
      split; [|reflexivity]. intros _. now exists declared.
  - assert (E : fst (extract_text W extractor image log)
                = inl (Exception
                         (txt "'NoneType' object has no attribute 'startswith'"))).
    { unfold extract_text, bind, lift, ret, raise. now rewrite Hc. }
    rewrite E. cbn [respond status body].
    split; [now right; right|]. split; [|discriminate].
    split; [discriminate|]. intros (d & Hd & _). discriminate Hd.
Qed.

(* ----------------------------------------------------------------- *)
(** *** X13 *)

(** X13.  Whatever the upload, the gateway and the collaborators do, the
    answer of [POST /api/extract] has status 200, 400 or 500; it is 400
    exactly when the upload declares a content type that does not start
    with "image/", and 200 only with a body whose [success] is [True]. *)
Theorem X13_statuses (W : World) (extractor : GeminiExtractor)
        (image : UploadFile) (log : list call) :
  let answer := respond W (fst (extract_text W extractor image log)) in
  (status answer = 200%Z \/ status answer = 400%Z \/ status answer = 500%Z)
  /\ (status answer = 400%Z
      <-> exists declared,
            content_type image = Some declared
            /\ Str.startswith declared (txt "image/") = false)
  /\ (status answer = 200%Z ->
      item (body answer) (lit "success") = Some (PBool true)).
Proof. apply handler_statuses. Qed.

End FrontDoorFacts.

(* ================================================================= *)
(** ** The image given by its path *)

Section PathFacts.

Import Extractor.

(* ----------------------------------------------------------------- *)
(** *** X14 *)

(** X14.  With the gateway available, [extract_text] on a path that does
    not exist returns the Failure "File not found" at once: the call log
    is unchanged, so the model is not called. *)
Theorem X14_file_not_found (W : World) (F : Files) (self : GeminiExtractor)
        (image_path : text) (log : list call) :
  is_available self = true ->
  path_exists F image_path = false ->
  ExtractorPath.extract_text W F self image_path log
  = (inr (error_result (txt "File not found")), log).
Proof.
  unfold is_available. intros Ha He.
  unfold ExtractorPath.extract_text. now rewrite Ha, He.
Qed.

Lemma X14_file_not_found_witness :
  ExtractorPath.extract_text
    (stub (inr an_image) (inr []))
    (one_file (txt "/tmp/report.png") (inr an_image))
    ready (txt "/tmp/other.png") []
  = (inr (error_result (txt "File not found")), []).
Proof.
  apply (X14_file_not_found
           (stub (inr an_image) (inr []))
           (one_file (txt "/tmp/report.png") (inr an_image))
           ready (txt "/tmp/other.png") []);
    reflexivity.
Defined.

(* ----------------------------------------------------------------- *)
(** *** X15 *)

(** X15.  The two entry points agree but for one case.  For a path that
    exists, when opening the file gives what decoding the bytes gives and
    the model answers the two prompts (which differ in their indentation
    only) alike, [extract_text] on the path returns what [extract_bytes]
    returns on the bytes, unless [json.loads] fails on the stripped model
    answer at one of its limits (nesting too deep, an integer too long):
    then [extract_bytes], which catches every exception, returns Success
    with the fallback, and [extract_text], which catches
    [JSONDecodeError] only, returns the Failure "Extraction failed: "
    followed by the error's text. *)
Theorem X15_path_and_bytes_agree (W : World) (F : Files)
        (self : GeminiExtractor) (image_path : text) (image_bytes : bytes)
        (log : list call) :
  path_exists F image_path = true ->
  Image_open_path F image_path = Image_open W image_bytes ->
  (forall m image,
      generate_content W m ExtractorPath.prompt image
      = generate_content W m prompt image) ->
  fst (ExtractorPath.extract_text W F self image_path log)
  = fst (extract_bytes W self image_bytes log)
  \/ exists m image output e,
      is_available self = true
      /\ model self = Some m
      /\ Image_open W image_bytes = inr image
      /\ generate_content W m prompt image = inr output
      /\ json_loads_result W (Str.strip output) = inl e
      /\ e <> Json.Invalid
      /\ fst (ExtractorPath.extract_text W F self image_path log)
         = inr (error_result
                  (txt "Extraction failed: "
                   ++ json_error_text W e (Str.strip output)))
      /\ fst (extract_bytes W self image_bytes log)
         = inr (success_result (fallback_data (Str.strip output))).
Proof.
  intros He Ho Hg.
  unfold ExtractorPath.extract_text, extract_bytes,
    ExtractorPath.model_text, model_text, ExtractorPath.consult, loads,
    try_except, try_except_JSONDecodeError, bind, ask, ret, raise.
  rewrite He, Ho. unfold is_available.
  destruct (_available self) eqn:Ha; [|now left]. cbn [negb].
  destruct (Image_open W image_bytes) as [e|image] eqn:Hi; [now left|].
  destruct (model self) as [m|] eqn:Hm; [|now left].
  rewrite Hg.
  destruct (generate_content W m prompt image) as [e|output] eqn:Hout;
    [now left|].
  destruct (json_loads_result W (Str.strip output)) as [[| |]|v] eqn:Hj.
  - now left.
  - right. exists m, image, output, Json.TooDeep.
    repeat split; try assumption; discriminate.
  - right. exists m, image, output, Json.TooLong.
    repeat split; try assumption; discriminate.
  - now left.
Qed.

Lemma X15_path_and_bytes_agree_witness :
  let W := stub (inr an_image) (inr (txt "Grade: 5")) in
  let F := one_file (txt "/tmp/report.png") (inr an_image) in
  fst (ExtractorPath.extract_text W F ready (txt "/tmp/report.png") [])
  = fst (extract_bytes W ready [] [])
  \/ exists m image output e,
      is_available ready = true
      /\ model ready = Some m
      /\ Image_open W [] = inr image
      /\ generate_content W m prompt image = inr output
      /\ json_loads_result W (Str.strip output) = inl e
      /\ e <> Json.Invalid
      /\ fst (ExtractorPath.extract_text W F ready (txt "/tmp/report.png") [])
         = inr (error_result
                  (txt "Extraction failed: "
                   ++ json_error_text W e (Str.strip output)))
      /\ fst (extract_bytes W ready [] [])
         = inr (success_result (fallback_data (Str.strip output))).
Proof.
  apply (X15_path_and_bytes_agree
           (stub (inr an_image) (inr (txt "Grade: 5")))
           (one_file (txt "/tmp/report.png") (inr an_image))
           ready (txt "/tmp/report.png") [] []);
    reflexivity.
Defined.

(** The case apart, on an integer of 4301 digits. *)
Example path_and_bytes_differ :
  let W := stub (inr an_image) (inr (repeat "7"%char 4301)) in
  let F := one_file (txt "/tmp/report.png") (inr an_image) in
  fst (ExtractorPath.extract_text W F ready (txt "/tmp/report.png") [])
    = inr (error_result
             (txt "Extraction failed: Exceeds the limit (4300 digits) for integer string conversion"))
  /\ fst (extract_bytes W ready [] [])
     = inr (success_result (fallback_data (repeat "7"%char 4301))).
Proof. split; vm_compute; reflexivity. Qed.

End PathFacts.

(* ================================================================= *)
(** ** The start of the process *)

Section StartupFacts.

Import Extractor.

(** When [__init__] makes an extractor available. *)
Lemma init_available_iff (W : World) (GEMINI_API_KEY GEMINI_MODEL : text) :
  is_available (__init__ W GEMINI_API_KEY GEMINI_MODEL) = true
  <-> GEMINI_API_KEY <> []
      /\ genai_configure W GEMINI_API_KEY = inr tt
      /\ exists m,
          GenerativeModel W (model_asked GEMINI_MODEL) = inr m
          /\ model (__init__ W GEMINI_API_KEY GEMINI_MODEL) = Some m.
Proof.
  unfold __init__, is_available, model_asked.
  destruct GEMINI_API_KEY as [|c key].
  - split; [discriminate|]. now intros [H _].
  - destruct (genai_configure W (c :: key)) as [e|[]].
    + split; [discriminate|]. intros (_ & H & _). discriminate H.
    + destruct (GenerativeModel W
                  match GEMINI_MODEL with
                  | [] => txt "gemini-2.5-flash"
                  | _ :: _ => GEMINI_MODEL
                  end) as [e|m].
      * split; [discriminate|]. intros (_ & _ & m & H & _). discriminate H.
      * split; [|reflexivity]. intros _.
        split; [discriminate|]. split; [reflexivity|]. now exists m.
Qed.

(* ----------------------------------------------------------------- *)
(** *** X16 *)

(** X16.  An extractor built by [__init__] is available exactly when the
    key is not empty and both [genai.configure] and
    [genai.GenerativeModel] return; it then holds the model that was
    built, so an available extractor never lacks its [model]. *)
Theorem X16_available_iff_client_built (W : World)
        (GEMINI_API_KEY GEMINI_MODEL : text) :
  is_available (__init__ W GEMINI_API_KEY GEMINI_MODEL) = true
  <-> GEMINI_API_KEY <> []
      /\ genai_configure W GEMINI_API_KEY = inr tt
      /\ exists m,
          GenerativeModel W (model_asked GEMINI_MODEL) = inr m
          /\ model (__init__ W GEMINI_API_KEY GEMINI_MODEL) = Some m.
Proof. apply init_available_iff. Qed.

(* ----------------------------------------------------------------- *)
(** *** X17 *)

(** X17.  The process refuses to start, with the [ValueError] of
    [config.py], exactly when [GEMINI_API_KEY] is unset or empty.  When
    it does start, the extractor was built with that key, and the model
    name asked for is never empty: it is [GEMINI_MODEL] from the
    environment when that is set and not empty, "gemini-2.5-flash"
    otherwise. *)
Theorem X17_startup (W : World) (env : Config.environ) :
  let key := Config.getenv env "GEMINI_API_KEY" [] in
  let name := model_asked
                (Config.getenv env "GEMINI_MODEL" (txt "gemini-2.5-flash")) in
  (key = []
   <-> startup W env
       = inl (Exception
                (txt "GEMINI_API_KEY not found in environment variables")))
  /\ (key <> []
      <-> exists extractor, startup W env = inr extractor)
  /\ (forall extractor,
         startup W env = inr extractor ->
         extractor = __init__ W key
                       (Config.getenv env "GEMINI_MODEL"
                                      (txt "gemini-2.5-flash"))
         /\ name <> []
         /\ (is_available extractor = true
             <-> genai_configure W key = inr tt
                 /\ exists m, GenerativeModel W name = inr m))
  /\ name = match env (txt "GEMINI_MODEL") with
            | Some (c :: r) => c :: r
            | _ => txt "gemini-2.5-flash"
            end.
Proof.
  cbv zeta. unfold startup, Config.load.
  destruct (Config.getenv env "GEMINI_API_KEY" []) as [|c key] eqn:Hk.
  - split; [now split|]. split.
    + split; [now intros H | intros [x H]; discriminate H].
    + split; [intros x H; discriminate H|].
      unfold Config.getenv.
      now destruct (env (txt "GEMINI_MODEL")) as [[|c r]|].
  - split; [split; discriminate|]. split.
    + split; [intros _; now eexists | discriminate].
    + split.
      * intros x H. injection H as <-. cbn [Config.GEMINI_API_KEY
                                              Config.GEMINI_MODEL].
        split; [reflexivity|]. split.
        -- unfold model_asked.
           now destruct (Config.getenv env "GEMINI_MODEL"
                                       (txt "gemini-2.5-flash")).
        -- unfold __init__, is_available, model_asked. cbn.
           destruct (genai_configure W (c :: key)) as [e|[]].
           { split; [discriminate | intros [H _]; discriminate H]. }
           match goal with
           | |- context [GenerativeModel W ?n] =>
               destruct (GenerativeModel W n) as [e|m]
           end.
           { split; [discriminate | intros (_ & m & H); discriminate H]. }
           split; [|reflexivity]. intros _. split; [reflexivity|].
           now exists m.
      * unfold Config.getenv.
        now destruct (env (txt "GEMINI_MODEL")) as [[|c0 r]|].
Qed.

End StartupFacts.

(* ================================================================= *)
(** ** The fields and the raw text *)

Section RawTextFacts.

Import Str Extractor.

Lemma startswith_app (k b : text) : startswith (k ++ b) k = true.
Proof.
  induction k as [|c k IH]; [now destruct b|].
  simpl. now rewrite Ascii.eqb_refl.
Qed.

Lemma contains_startswith (k s : text) :
  startswith s k = true -> contains k s = true.
Proof. intros H. destruct s; cbn [contains]; now rewrite H. Qed.

Lemma contains_infix (a k b : text) : contains k (a ++ k ++ b) = true.
Proof.
  induction a as [|c a IH].
  - cbn [app]. apply contains_startswith. apply startswith_app.
  - cbn [app contains]. rewrite IH. apply orb_true_r.
Qed.

Lemma split_lines_first_prefix (t l : text) (ls : list text) :
  split_lines t = l :: ls -> exists b, t = l ++ b.
Proof.
  revert l ls. induction t as [|c t IH]; intros l ls H.
  - injection H as <- _. now exists [].
  - cbn [split_lines] in H. destruct (Ascii.eqb c newline).
    + injection H as <- _. now exists (c :: t).
    + destruct (split_lines t) as [|l0 ls0] eqn:E.
      { now apply split_lines_not_nil in E. }
      injection H as <- _.
      destruct (IH l0 ls0 eq_refl) as [b ->]. now exists b.
Qed.

Lemma split_lines_infix (t l : text) :
  In l (split_lines t) -> exists a b, t = a ++ l ++ b.
Proof.
  revert l. induction t as [|c t IH]; intros l H.
  - destruct H as [<-|[]]. now exists [], [].
  - cbn [split_lines] in H. destruct (Ascii.eqb c newline).
    + destruct H as [<-|H]; [now exists [], (c :: t)|].
      destruct (IH l H) as (a & b & ->). now exists (c :: a), b.
    + destruct (split_lines t) as [|l0 ls0] eqn:E.
      { now apply split_lines_not_nil in E. }
      destruct H as [<-|H].
      * destruct (split_lines_first_prefix t l0 ls0 E) as [b ->].
        now exists [], b.
      * destruct (IH l (or_intror H)) as (a & b & ->).
        now exists (c :: a), b.
Qed.

Lemma extract_field_in_text (t : text) (keywords : list text) :
  contains (_extract_field t keywords) t = true.
Proof.
  destruct (extract_field_cases t keywords)
    as [E|(k & line & _ & Hin & _ & E)]; rewrite E.
  - apply contains_startswith. now destruct t.
  - destruct (split_lines_infix t line Hin) as (a & b & ->).
    destruct (strip_parts line) as (lead & trail & Hl & _).
    rewrite Hl at 2.
    replace (a ++ (lead ++ strip line ++ trail) ++ b)
      with ((a ++ lead) ++ strip line ++ (trail ++ b))
      by now rewrite <- !app_assoc.
    apply contains_infix.
Qed.

(* ----------------------------------------------------------------- *)
(** *** X18 *)

(** X18.  In the fallback dict every scalar field can be found in
    [raw_text]: each of [student_name], [grade_level], [report_year] and
    [general_comments] is a piece of consecutive characters of the text
    that [raw_text] holds. *)
Theorem X18_fields_are_pieces_of_raw_text (t : text) (field : string) :
  In field ["student_name"; "grade_level"; "report_year";
            "general_comments"]%string ->
  exists value,
    item (fallback_data t) (lit field) = Some (PStr (u value))
    /\ item (fallback_data t) (lit "raw_text") = Some (PStr (u t))
    /\ contains value t = true.
Proof.
  intros [<-|[<-|[<-|[<-|[]]]]];
    eexists; (split; [reflexivity|]); (split; [reflexivity|]);
    apply extract_field_in_text.
Qed.

Lemma X18_fields_are_pieces_of_raw_text_witness :
  exists value,
    item (fallback_data (lines2 "Report" " Grade: 5 ")) (lit "grade_level")
      = Some (PStr (u value))
    /\ item (fallback_data (lines2 "Report" " Grade: 5 ")) (lit "raw_text")
       = Some (PStr (u (lines2 "Report" " Grade: 5 ")))
    /\ contains value (lines2 "Report" " Grade: 5 ") = true.
Proof.
  apply (X18_fields_are_pieces_of_raw_text
           (lines2 "Report" " Grade: 5 ") "grade_level").
  right. left. reflexivity.
Defined.

End RawTextFacts.

(* ================================================================= *)
(** ** One request, one attempt *)

Section RequestFacts.

Import Extractor Main.

(* ----------------------------------------------------------------- *)
(** *** X19 *)

(** X19.  One request costs at most one of each: whatever happens, the
    handler only adds to the call log, and what it adds holds at most one
    read of the upload, one entry into the gateway, one image decode and
    one model call.  An upload refused for its content type adds
    nothing. *)
Theorem X19_one_request_one_attempt (W : World) (extractor : GeminiExtractor)
        (image : UploadFile) (log : list call) :
  exists added : list call,
    snd (extract_text W extractor image log) = log ++ added
    /\ List.length added <= 4
    /\ read_calls added <= 1
    /\ extract_calls added <= 1
    /\ decode_calls added <= 1
    /\ model_calls added <= 1
    /\ (status (respond W (fst (extract_text W extractor image log))) = 400%Z
        -> added = []).
Proof.
  destruct (content_type image) as [declared|] eqn:Hc.
  - destruct (Str.startswith declared (txt "image/")) eqn:Hs.
    + destruct (read image) as [e|content] eqn:Hr.
      * exists [CallRead].
        destruct (handler_read_raises W extractor image declared e log
                                      Hc Hs Hr) as [Hf Hl].
        rewrite Hf, Hl. cbn. repeat split; try lia; discriminate.
      * assert (Hl : snd (extract_text W extractor image log)
                     = (log ++ [CallRead] ++ [CallExtractBytes content])
                         ++ snd (extract_bytes W extractor content [])).
        { rewrite (handler_on_image W extractor image declared content log
                                    Hc Hs Hr).
          cbv zeta.
          destruct (fst (extract_bytes W extractor content []))
            as [e|result]; [reflexivity|].
          destruct (item result (lit "type")) as [type|]; [|reflexivity].
          destruct (is_str type "success").
          - now destruct (item result (lit "data")).
          - now destruct (item result (lit "error")). }
        assert (Hn : status (respond W (fst (extract_text W extractor image log)))
                     <> 400%Z).
        { intros H.
          apply (proj1 (proj2 (handler_statuses W extractor image log))) in H.
          destruct H as (d & Hd & Hf). congruence. }
        destruct (extract_bytes_added W extractor content [])
          as (r & added & Hrun & Hadded).
        exists ([CallRead; CallExtractBytes content] ++ added).
        rewrite Hl, (Hrun []). cbn [snd app].
        split; [now rewrite <- !app_assoc|].
        destruct Hadded as [[-> _] | [[-> _] | (m & im & -> & _)]];
          cbn; repeat split; try lia; intros H; now destruct (Hn H).
    + exists [].
      assert (E : extract_text W extractor image log
                  = (inl (HTTPException 400
                            (PStr (lit "File must be an image"))), log)).
      { unfold extract_text, bind, lift, ret, raise. now rewrite Hc, Hs. }
      rewrite E. cbn. rewrite app_nil_r. repeat split; lia.
  - exists [].
    assert (E : extract_text W extractor image log
                = (inl (Exception
                          (txt "'NoneType' object has no attribute 'startswith'")),
                   log)).
    { unfold extract_text, bind, lift, ret, raise. now rewrite Hc. }
    rewrite E. cbn. rewrite app_nil_r. repeat split; lia.
Qed.

End RequestFacts.
